(** * News trend dashboard ([app.py]): a shallow embedding and its properties

    The three functions of the script that carry logic are embedded here:
    [guardian_search] (the article source client), [generate_analysis]
    (the report generator, behind Streamlit's [st.cache_data]) and
    [run_agent] (the orchestrator that rotates [current] into [previous]).

    Python values are values of [pyval]; exceptions and the mutable state
    (session store, function cache, messages shown to the user, the calls
    made to the outside world) are threaded by a small state-and-exception
    monad [M].  The outside world (HTTP endpoint, chat completion endpoint,
    wall clock) is a triple of oracles indexed by the number of calls made
    before, so that two calls with equal arguments may answer differently. *)

From Stdlib Require Import ZArith String List.
From Stdlib Require Import Floats.SpecFloat.
From stdpp Require Import base option list strings gmap.

Local Open Scope string_scope.

(** ** Python values *)

(** The values [json.loads] produces, which are also the only values that
    flow through the three functions.  A [str] is a Rocq [string], one
    [ascii] per character; a [dict] is the list of its items in insertion
    order, a key being looked up from the front. *)
#[warnings="-register-all"]
Inductive pyval : Type :=
| PNone
| PBool (b : bool)
| PInt (z : Z)
| PFloat (f : spec_float)
| PStr (s : string)
| PList (l : list pyval)
| PDict (d : list (string * pyval)).

Definition spec_float_eqb (f g : spec_float) : bool :=
  match f, g with
  | S754_zero s, S754_zero s' => Bool.eqb s s'
  | S754_infinity s, S754_infinity s' => Bool.eqb s s'
  | S754_nan, S754_nan => true
  | S754_finite s m e, S754_finite s' m' e' =>
      Bool.eqb s s' && Pos.eqb m m' && Z.eqb e e'
  | _, _ => false
  end.

(** Structural equality, the equality of Streamlit's argument hashing
    (items of a dict are hashed in order). *)
Fixpoint pyval_eqb (v w : pyval) {struct v} : bool :=
  match v, w with
  | PNone, PNone => true
  | PBool a, PBool b => Bool.eqb a b
  | PInt a, PInt b => Z.eqb a b
  | PFloat a, PFloat b => spec_float_eqb a b
  | PStr a, PStr b => String.eqb a b
  | PList l, PList l' =>
      (fix go (l l' : list pyval) {struct l} : bool :=
         match l, l' with
         | [], [] => true
         | x :: l, y :: l' => pyval_eqb x y && go l l'
         | _, _ => false
         end) l l'
  | PDict d, PDict d' =>
      (fix go (d d' : list (string * pyval)) {struct d} : bool :=
         match d, d' with
         | [], [] => true
         | (k, x) :: d, (k', y) :: d' =>
             String.eqb k k' && pyval_eqb x y && go d d'
         | _, _ => false
         end) d d'
  | _, _ => false
  end.

(** [bool(v)]: what [if v:] and [not v] test. *)
Definition truthy (v : pyval) : bool :=
  match v with
  | PNone => false
  | PBool b => b
  | PInt z => negb (Z.eqb z 0)
  | PFloat (S754_zero _) => false
  | PFloat _ => true
  | PStr s => negb (String.eqb s "")
  | PList l => match l with [] => false | _ => true end
  | PDict d => match d with [] => false | _ => true end
  end.

Definition type_name (v : pyval) : string :=
  match v with
  | PNone => "NoneType"
  | PBool _ => "bool"
  | PInt _ => "int"
  | PFloat _ => "float"
  | PStr _ => "str"
  | PList _ => "list"
  | PDict _ => "dict"
  end.

(** ** Exceptions *)

Inductive exn : Type :=
| AttributeError (ty attr : string)
| TypeError (msg : string)
| External (msg : string).
    (* raised by [requests] or [openai]: transport, HTTP status, decoding *)

(** [str(e)], as interpolated into the messages shown to the user. *)
Definition exn_text (e : exn) : string :=
  match e with
  | AttributeError ty attr =>
      "'" +:+ ty +:+ "' object has no attribute '" +:+ attr +:+ "'"
  | TypeError msg => msg
  | External msg => msg
  end.

Inductive result (A : Type) : Type :=
| Ok (a : A)
| Raise (e : exn).
Arguments Ok {A} a.
Arguments Raise {A} e.

(** ** Pure operations on values *)

Fixpoint dict_get (d : list (string * pyval)) (k : string) : option pyval :=
  match d with
  | [] => None
  | (k', v) :: d => if String.eqb k' k then Some v else dict_get d k
  end.

(** [v.get(k, dflt)]: only a dict has the method. *)
Definition py_get (v : pyval) (k : string) (dflt : pyval) : result pyval :=
  match v with
  | PDict d => Ok (default dflt (dict_get d k))
  | _ => Raise (AttributeError (type_name v) "get")
  end.

(** [v[:10]].  Slicing a dict raises (a [TypeError] up to Python 3.11, a
    [KeyError] since); nothing below depends on which. *)
Definition py_slice10 (v : pyval) : result pyval :=
  match v with
  | PStr s => Ok (PStr (String.substring 0 10 s))
  | PList l => Ok (PList (take 10 l))
  | PDict _ => Raise (TypeError "unhashable type: 'slice'")
  | _ => Raise (TypeError ("'" +:+ type_name v +:+ "' object is not subscriptable"))
  end.

Fixpoint dict_keys (d : list (string * pyval)) (seen : list string) : list string :=
  match d with
  | [] => []
  | (k, _) :: d =>
      if existsb (String.eqb k) seen then dict_keys d seen
      else k :: dict_keys d (k :: seen)
  end.

(** The elements [for a in v] ranges over. *)
Definition py_iter (v : pyval) : result (list pyval) :=
  match v with
  | PList l => Ok l
  | PStr s => Ok (map (fun c => PStr (String c EmptyString)) (list_ascii_of_string s))
  | PDict d => Ok (map PStr (dict_keys d []))
  | _ => Raise (TypeError ("'" +:+ type_name v +:+ "' object is not iterable"))
  end.

Definition nl : string := String (Ascii.ascii_of_nat 10) EmptyString.

(** [sep.join(ls)]. *)
Definition join (sep : string) (ls : list string) : string := String.concat sep ls.

(** A list comprehension whose element expression may raise: the first
    exception, in iteration order, ends it. *)
Fixpoint comprehension {A B} (f : A -> result B) (l : list A) : result (list B) :=
  match l with
  | [] => Ok []
  | a :: l =>
      match f a with
      | Raise e => Raise e
      | Ok b =>
          match comprehension f l with
          | Raise e => Raise e
          | Ok bs => Ok (b :: bs)
          end
      end
  end.

(** ** The session, the cache and the outside world *)

(** [st.info], [st.success], [st.warning], [st.error]. *)
Inductive level : Type := Info | Success | Warning | Error.

(** One value of [st.session_state.reports]. *)
Record report : Type := {
  current : pyval;
  previous : pyval;
  current_summary : pyval;
  trend_change : pyval;
  last_updated : string
}.

(** One entry of the [st.cache_data] cache of [generate_analysis]: the
    arguments, the value returned, and the messages the body showed, which
    Streamlit shows again when the entry is hit. *)
Record cache_entry : Type := {
  c_keyword : string;
  c_articles : pyval;
  c_previous : pyval;
  c_value : pyval * pyval;
  c_replay : list (level * string)
}.

Record state : Type := {
  reports : gmap string report;          (* st.session_state.reports *)
  cache : list cache_entry;              (* newest entry first *)
  shown : list (level * string);         (* messages shown, oldest first *)
  http_log : list (string * Z);          (* GET requests sent: q, page-size *)
  chat_log : list string;                (* prompts sent to the model *)
  clock : nat                            (* readings of datetime.now() *)
}.

(** What [requests.get] returns when it does not raise. *)
Record response : Type := {
  status_code : Z;
  status_error : string;        (* text of the HTTPError of a 4xx/5xx status *)
  json_body : result pyval      (* what [response.json()] does *)
}.

(** The state-and-exception monad: an exception keeps the effects made
    before it was raised. *)
Definition M (A : Type) : Type := state -> result A * state.

Definition ret {A} (a : A) : M A := fun st => (Ok a, st).

Definition bind {A B} (c : M A) (k : A -> M B) : M B :=
  fun st =>
    match c st with
    | (Ok a, st') => k a st'
    | (Raise e, st') => (Raise e, st')
    end.

Definition lift {A} (r : result A) : M A := fun st => (r, st).

(** [try: body  except Exception as e: handler e]. *)
Definition try_except {A} (body : M A) (handler : exn -> M A) : M A :=
  fun st =>
    match body st with
    | (Ok a, st') => (Ok a, st')
    | (Raise e, st') => handler e st'
    end.

Declare Scope py_scope.
Delimit Scope py_scope with py.
Notation "x <- c ;; k" := (bind c (fun x => k))
  (at level 100, c at next level, right associativity) : py_scope.
Notation "c ;;; k" := (bind c (fun _ => k))
  (at level 100, right associativity) : py_scope.

Definition with_reports (r : gmap string report) (st : state) : state :=
  {| reports := r; cache := cache st; shown := shown st;
     http_log := http_log st; chat_log := chat_log st; clock := clock st |}.
Definition with_cache (c : list cache_entry) (st : state) : state :=
  {| reports := reports st; cache := c; shown := shown st;
     http_log := http_log st; chat_log := chat_log st; clock := clock st |}.
Definition with_shown (s : list (level * string)) (st : state) : state :=
  {| reports := reports st; cache := cache st; shown := s;
     http_log := http_log st; chat_log := chat_log st; clock := clock st |}.
Definition with_http_log (h : list (string * Z)) (st : state) : state :=
  {| reports := reports st; cache := cache st; shown := shown st;
     http_log := h; chat_log := chat_log st; clock := clock st |}.
Definition with_chat_log (c : list string) (st : state) : state :=
  {| reports := reports st; cache := cache st; shown := shown st;
     http_log := http_log st; chat_log := c; clock := clock st |}.
Definition with_clock (n : nat) (st : state) : state :=
  {| reports := reports st; cache := cache st; shown := shown st;
     http_log := http_log st; chat_log := chat_log st; clock := n |}.

(** [st.info(msg)] and its siblings. *)
Definition show (lv : level) (msg : string) : M unit :=
  fun st => (Ok tt, with_shown (shown st ++ [(lv, msg)]) st).

Local Open Scope py_scope.
Local Open Scope list_scope.

(** ** The program *)

Section Program.

(** [str(v)] for a value that is not a [str], as an f-string renders it. *)
Variable py_str : pyval -> string.

(** The [n]-th GET request of the process, with its [q] and [page-size]:
    [requests.get] raises, or returns a response. *)
Variable http_get : nat -> string -> Z -> result response.

(** The [n]-th chat completion of the process, with its prompt: the
    [choices[0].message.content] of the reply, or what the call or the
    path into the reply raises. *)
Variable chat_create : nat -> string -> result pyval.

(** The [n]-th reading of the clock, formatted. *)
Variable now : nat -> string.

(** [f"{v}"]. *)
Definition fmt (v : pyval) : string :=
  match v with
  | PStr s => s
  | _ => py_str v
  end.

(** *** [guardian_search] *)

Definition requests_get (keyword : string) (page_size : Z) : M response :=
  fun st =>
    (http_get (length (http_log st)) keyword page_size,
     with_http_log (http_log st ++ [(keyword, page_size)]) st).

(** [response.raise_for_status()]: an HTTPError for a 4xx or 5xx status. *)
Definition raise_for_status (r : response) : result unit :=
  if (400 <=? status_code r)%Z && (status_code r <? 600)%Z
  then Raise (External (status_error r))
  else Ok tt.

Definition guardian_search (keyword : string) (page_size : Z) : M pyval :=
  try_except
    (response <- requests_get keyword page_size ;;
     lift (raise_for_status response) ;;;
     data <- lift (json_body response) ;;
     envelope <- lift (py_get data "response" (PDict [])) ;;
     articles <- lift (py_get envelope "results" (PList [])) ;;
     ret articles)
    (fun e =>
       show Error ("Guardian API call error while searching for '" +:+ keyword
                   +:+ "': " +:+ exn_text e) ;;;
       ret (PList [])).

(** *** [generate_analysis] *)

(** One element of the comprehension that builds [article_texts]. *)
Definition article_line (a : pyval) : result string :=
  match py_get a "webTitle" (PStr "") with
  | Raise e => Raise e
  | Ok title =>
      match py_get a "webPublicationDate" (PStr "") with
      | Raise e => Raise e
      | Ok date =>
          match py_slice10 date with
          | Raise e => Raise e
          | Ok date10 =>
              match py_get a "fields" (PDict []) with
              | Raise e => Raise e
              | Ok fields =>
                  match py_get fields "trailText" (PStr "") with
                  | Raise e => Raise e
                  | Ok trail =>
                      Ok ("- " +:+ fmt title +:+ " (" +:+ fmt date10 +:+ ") - "
                          +:+ fmt trail)
                  end
              end
          end
      end
  end.

Definition article_texts (articles : pyval) : result string :=
  match py_iter articles with
  | Raise e => Raise e
  | Ok l =>
      match comprehension article_line l with
      | Raise e => Raise e
      | Ok lines => Ok (join nl lines)
      end
  end.

(** One element of the comprehension that builds [previous_article_texts]. *)
Definition title_line (a : pyval) : result string :=
  match py_get a "webTitle" (PStr "") with
  | Raise e => Raise e
  | Ok title => Ok ("- " +:+ fmt title)
  end.

Definition previous_article_texts (previous_articles : pyval) : result string :=
  match py_iter previous_articles with
  | Raise e => Raise e
  | Ok l =>
      match comprehension title_line l with
      | Raise e => Raise e
      | Ok lines => Ok (join nl lines)
      end
  end.

Definition summary_prompt (keyword article_texts : string) : string :=
  join nl
    [ "";
      "    The following is a list of recent news articles for the keyword '"
        +:+ keyword +:+ "'.";
      "    Based on these articles, write a **one-page summary report** on the overall media trend in **English**.";
      "    (Include the general sentiment, key issues, and major related figures/companies. Format cleanly using Markdown.)";
      "    ---";
      "    Article List:";
      "    " +:+ article_texts;
      "    ---";
      "    " ].

Definition comparison_prompt
    (keyword previous_article_texts article_texts : string) : string :=
  join nl
    [ "";
      "        Compare the previous list of articles with the latest list for the keyword '"
        +:+ keyword +:+ "' and analyze the **key shifts in media trends**.";
      "        Please structure the result using the following format:";
      "        ## Major Trend Change Analysis";
      "        ### 1. Key Shifts Summary";
      "        [Analysis content]";
      "        ### 2. Newly Emerging or Rising Issues";
      "        * [Issue 1]";
      "        * [Issue 2]";
      "        ### 3. Issues Decreasing in Importance";
      "        * [Issue 1]";
      "        ";
      "        * Previous Article List: " +:+ previous_article_texts;
      "        * Latest Article List: " +:+ article_texts;
      "        " ].

Definition NO_PREVIOUS_DATA : string :=
  "No previous search data available to compare trend changes.".

Definition SUMMARY_FAILED : string :=
  "Failed to generate the summary report.".

(** [client.chat.completions.create(...).choices[0].message.content]. *)
Definition chat_completion (prompt : string) : M pyval :=
  fun st =>
    (chat_create (length (chat_log st)) prompt,
     with_chat_log (chat_log st ++ [prompt]) st).

(** The function as written, without its decorator. *)
Definition generate_analysis_body
    (keyword : string) (articles previous_articles : pyval) : M (pyval * pyval) :=
  article_texts <- lift (article_texts articles) ;;
  let summary_prompt := summary_prompt keyword article_texts in
  let trend_change_text := PStr NO_PREVIOUS_DATA in
  trend_change_text <-
    (if truthy previous_articles then
       previous_article_texts <- lift (previous_article_texts previous_articles) ;;
       let comparison_prompt :=
         comparison_prompt keyword previous_article_texts article_texts in
       try_except
         (chat_completion comparison_prompt)
         (fun e =>
            show Error ("OpenAI Trend Analysis Error: " +:+ exn_text e) ;;;
            ret trend_change_text)
     else ret trend_change_text) ;;
  current_summary <-
    try_except
      (chat_completion summary_prompt)
      (fun e =>
         show Error ("OpenAI Summary Report Generation Error: " +:+ exn_text e) ;;;
         ret (PStr SUMMARY_FAILED)) ;;
  ret (current_summary, trend_change_text).

(** *** [st.cache_data] *)

Definition key_eqb (keyword : string) (articles previous_articles : pyval)
    (e : cache_entry) : bool :=
  String.eqb keyword (c_keyword e)
  && pyval_eqb articles (c_articles e)
  && pyval_eqb previous_articles (c_previous e).

Definition cache_lookup (keyword : string) (articles previous_articles : pyval)
    (c : list cache_entry) : option cache_entry :=
  find (key_eqb keyword articles previous_articles) c.

(** The decorated function: a hit returns the stored value and shows the
    stored messages again; a miss runs the body and, when the body
    returns, stores its value with the messages it showed.  The decorator
    is given no [ttl] and no [max_entries]: entries are never dropped. *)
Definition generate_analysis
    (keyword : string) (articles previous_articles : pyval) : M (pyval * pyval) :=
  fun st =>
    match cache_lookup keyword articles previous_articles (cache st) with
    | Some e => (Ok (c_value e), with_shown (shown st ++ c_replay e) st)
    | None =>
        match generate_analysis_body keyword articles previous_articles st with
        | (Ok v, st') =>
            (Ok v,
             with_cache
               ({| c_keyword := keyword; c_articles := articles;
                   c_previous := previous_articles; c_value := v;
                   c_replay := drop (length (shown st)) (shown st') |}
                :: cache st') st')
        | (Raise e, st') => (Raise e, st')
        end
    end.

(** *** [run_agent] *)

Definition read_clock : M string :=
  fun st => (Ok (now (clock st)), with_clock (S (clock st)) st).

Definition get_reports : M (gmap string report) :=
  fun st => (Ok (reports st), st).

(** The body of the [for] loop for one keyword, [new_reports] being the
    local dict of the run.  The spinner is shown only while the body runs
    and leaves no message. *)
Definition run_keyword (keyword : string) (new_reports : gmap string report)
    : M (gmap string report) :=
  articles <- guardian_search keyword 10 ;;
  if negb (truthy articles) then
    show Warning ("Could not find recent articles for keyword '" +:+ keyword +:+ "'.") ;;;
    ret new_reports
  else
    session_reports <- get_reports ;;
    let previous_articles :=
      match session_reports !! keyword with
      | Some previous_data => current previous_data
      | None => PNone
      end in
    analysis <- generate_analysis keyword articles previous_articles ;;
    let '(current_summary, trend_change) := analysis in
    stamp <- read_clock ;;
    ret (<[keyword :=
             {| current := articles;
                previous := if truthy previous_articles then previous_articles
                            else PList [];
                current_summary := current_summary;
                trend_change := trend_change;
                last_updated := stamp |}]> new_reports).

Fixpoint run_loop (keywords : list string) (new_reports : gmap string report)
    : M (gmap string report) :=
  match keywords with
  | [] => ret new_reports
  | keyword :: keywords =>
      new_reports <- run_keyword keyword new_reports ;;
      run_loop keywords new_reports
  end.

(** [dict.update]: the entries of [new_reports] replace or extend. *)
Definition update_reports (new_reports : gmap string report) : M unit :=
  fun st => (Ok tt, with_reports (new_reports ∪ reports st) st).

Definition run_agent (keywords : list string) : M unit :=
  show Info "Searching for new data and generating analysis reports. Please wait..." ;;;
  new_reports <- run_loop keywords ∅ ;;
  update_reports new_reports ;;;
  show Success "Data search and analysis completed!".

(** *** What the functions compute, read off the oracles

    These definitions restate no more than the code above; the lemmas
    [guardian_search_eq] and [generate_analysis_body_eq] tie them to it. *)

(** The value of the [try] block of [guardian_search] on the [n]-th
    request. *)
Definition search_outcome (n : nat) (keyword : string) (page_size : Z)
    : result pyval :=
  match http_get n keyword page_size with
  | Raise e => Raise e
  | Ok response =>
      match raise_for_status response with
      | Raise e => Raise e
      | Ok _ =>
          match json_body response with
          | Raise e => Raise e
          | Ok data =>
              match py_get data "response" (PDict []) with
              | Raise e => Raise e
              | Ok envelope => py_get envelope "results" (PList [])
              end
          end
      end
  end.

(** What [guardian_search] returns on the [n]-th request. *)
Definition search_value (n : nat) (keyword : string) (page_size : Z) : pyval :=
  match search_outcome n keyword page_size with
  | Ok articles => articles
  | Raise _ => PList []
  end.

Definition search_error_message (keyword : string) (e : exn) : string :=
  "Guardian API call error while searching for '" +:+ keyword
  +:+ "': " +:+ exn_text e.

Definition no_articles_message (keyword : string) : string :=
  "Could not find recent articles for keyword '" +:+ keyword +:+ "'.".

(** The value that replaces a model reply that could not be had. *)
Definition reply_or (placeholder : string) (r : result pyval) : pyval :=
  match r with
  | Ok content => content
  | Raise _ => PStr placeholder
  end.

(** Every entry of the cache was stored by a run of the body that
    returned: the only way [generate_analysis] adds one. *)
Definition cache_inv (c : list cache_entry) : Prop :=
  Forall
    (fun e =>
       exists st0 st1,
         generate_analysis_body (c_keyword e) (c_articles e) (c_previous e) st0
         = (Ok (c_value e), st1))
    c.

End Program.

(** ** Article records, as the data model describes them *)

(** The value of a string attribute of a record, [""] when the record has
    no such key. *)
Definition attribute (d : list (string * pyval)) (k : string) : string :=
  match dict_get d k with
  | Some (PStr s) => s
  | _ => ""
  end.

Definition absent_or_str (d : list (string * pyval)) (k : string) : bool :=
  match dict_get d k with
  | None | Some (PStr _) => true
  | Some _ => false
  end.

(** An article record: a dict whose [webTitle], [webPublicationDate] and
    [fields.trailText], where present, are strings. *)
Definition article_record (a : pyval) : bool :=
  match a with
  | PDict d =>
      absent_or_str d "webTitle" && absent_or_str d "webPublicationDate"
      && match dict_get d "fields" with
         | None => true
         | Some (PDict f) => absent_or_str f "trailText"
         | Some _ => false
         end
  | _ => false
  end.

Definition title_of (a : pyval) : string :=
  match a with PDict d => attribute d "webTitle" | _ => "" end.

Definition date_of (a : pyval) : string :=
  match a with PDict d => attribute d "webPublicationDate" | _ => "" end.

Definition teaser_of (a : pyval) : string :=
  match a with
  | PDict d =>
      match dict_get d "fields" with
      | Some (PDict f) => attribute f "trailText"
      | _ => ""
      end
  | _ => ""
  end.

(** The digest line the specification describes: title, the first ten
    characters of the date, teaser. *)
Definition digest_line (a : pyval) : string :=
  "- " +:+ title_of a +:+ " (" +:+ String.substring 0 10 (date_of a) +:+ ") - "
  +:+ teaser_of a.

(** The lines of a text: what lies between its newlines, a text with no
    character having no line. *)
Definition is_newline (c : Ascii.ascii) : bool := Ascii.eqb c (Ascii.ascii_of_nat 10).

Fixpoint segments (s : string) : list string :=
  match s with
  | EmptyString => [EmptyString]
  | String c s' =>
      if is_newline c then EmptyString :: segments s'
      else match segments s' with
           | x :: rest => String c x :: rest
           | [] => [String c EmptyString]
           end
  end.

Definition lines_of (s : string) : list string :=
  match s with
  | EmptyString => []
  | _ => segments s
  end.

Fixpoint no_newline (s : string) : bool :=
  match s with
  | EmptyString => true
  | String c s' => negb (is_newline c) && no_newline s'
  end.

(** A record none of whose attributes holds a newline. *)
Definition single_line_record (a : pyval) : bool :=
  no_newline (title_of a) && no_newline (date_of a) && no_newline (teaser_of a).

(** What the search endpoint documents as [response.results]: a list of
    article records. *)
Definition article_records (v : pyval) : bool :=
  match v with
  | PList l => forallb article_record l
  | _ => false
  end.

Definition is_dict (a : pyval) : bool :=
  match a with PDict _ => true | _ => false end.

(** A non-empty list of dicts. *)
Definition article_list (v : pyval) : bool :=
  match v with
  | PList (a :: l) => forallb is_dict (a :: l)
  | _ => false
  end.

(** What the report generator leaves alone. *)
Definition frame (st st' : state) : Prop :=
  reports st' = reports st /\ cache st' = cache st
  /\ http_log st' = http_log st /\ clock st' = clock st.

(** ** Stores the orchestrator produces *)

(** The [previous_articles] that [run_agent] reads for a keyword. *)
Definition prior_current (m : gmap string report) (keyword : string) : pyval :=
  match m !! keyword with
  | Some previous_data => current previous_data
  | None => PNone
  end.

Definition report_ok (r : report) : bool :=
  article_list (current r)
  && match previous r with PList l => true | _ => false end.

Definition store_inv (m : gmap string report) : Prop :=
  map_Forall (fun _ r => report_ok r = true) m.

(** The states of a session: it starts with an empty store, and with a
    cache that only [generate_analysis] has written (the cache is shared
    by the sessions of the process); then [run_agent] runs, any number of
    times, on any keywords. *)
Inductive reachable (py_str : pyval -> string)
    (http_get : nat -> string -> Z -> result response)
    (chat_create : nat -> string -> result pyval)
    (now : nat -> string) : state -> Prop :=
| reachable_start st :
    reports st = ∅ ->
    cache_inv py_str chat_create (cache st) ->
    reachable py_str http_get chat_create now st
| reachable_run st keywords :
    reachable py_str http_get chat_create now st ->
    reachable py_str http_get chat_create now
      (run_agent py_str http_get chat_create now keywords st).2.

(** [later st st']: [st'] is [st] after any number of further calls of
    the report generator and runs of the orchestrator. *)
Inductive later (py_str : pyval -> string)
    (http_get : nat -> string -> Z -> result response)
    (chat_create : nat -> string -> result pyval)
    (now : nat -> string) (st : state) : state -> Prop :=
| later_now : later py_str http_get chat_create now st st
| later_call st' keyword articles previous_articles :
    later py_str http_get chat_create now st st' ->
    later py_str http_get chat_create now st
      (generate_analysis py_str chat_create keyword articles previous_articles st').2
| later_run st' keywords :
    later py_str http_get chat_create now st st' ->
    later py_str http_get chat_create now st
      (run_agent py_str http_get chat_create now keywords st').2.

(** ** A sample session

    The scenario of the specification: the keyword is searched three
    times.  The first search gives three articles (one of them with no
    field at all), the second two others, the third is answered with a 503
    status, and later requests fail in transport.  The second call of the
    model raises; the others reply. *)
Module Sample.

Definition py_str (v : pyval) : string := "".

Definition article (title date teaser : string) : pyval :=
  PDict [("webTitle", PStr title); ("webPublicationDate", PStr date);
         ("fields", PDict [("trailText", PStr teaser)])].

Definition envelope (results : pyval) : pyval :=
  PDict [("response", PDict [("status", PStr "ok"); ("results", results)])].

Definition three : pyval :=
  PList [article "Qubits at scale" "2024-01-02T10:00:00Z" "A new chip";
         article "Error correction" "2024-01-03T08:30:00Z" "Fewer errors";
         PDict []].

Definition two : pyval :=
  PList [article "Quantum funding" "2024-02-01T09:00:00Z" "A new round";
         PDict [("webTitle", PStr "Post-quantum keys")]].

Definition success (body : pyval) : result response :=
  Ok {| status_code := 200; status_error := ""; json_body := Ok body |}.

Definition http_get (n : nat) (keyword : string) (page_size : Z) : result response :=
  match n with
  | 0 => success (envelope three)
  | 1 => success (envelope two)
  | 2 => Ok {| status_code := 503;
               status_error := "503 Server Error: Service Unavailable";
               json_body := Raise (External "Expecting value") |}
  | _ => Raise (External "Connection refused")
  end.

(** An endpoint that answers an envelope whose [results] is [null]. *)
Definition http_null (n : nat) (keyword : string) (page_size : Z) : result response :=
  success (envelope PNone).

Definition chat_create (n : nat) (prompt : string) : result pyval :=
  match n with
  | 1 => Raise (External "Rate limit exceeded")
  | _ => Ok (PStr "A report.")
  end.

(** A model that always replies. *)
Definition chat_replies (n : nat) (prompt : string) : result pyval :=
  Ok (PStr "A report.").

Definition now (n : nat) : string := "2024-02-01 09:00:00".

Definition keyword : string := "Quantum Computing".

Definition start : state :=
  {| reports := ∅; cache := []; shown := []; http_log := []; chat_log := [];
     clock := 0 |}.

Definition run (keywords : list string) (st : state) : state :=
  (run_agent py_str http_get chat_create now keywords st).2.

Definition after_first : state := run [keyword] start.
Definition after_second : state := run [keyword] after_first.

End Sample.

(** ** The rest of the script: keywords, buttons, the article list *)

(** [c.isspace()], for the characters a [string] holds. *)
Definition is_space (c : Ascii.ascii) : bool :=
  let n := Ascii.nat_of_ascii c in
  (Nat.leb 9 n && Nat.leb n 13) || (Nat.leb 28 n && Nat.leb n 31)
  || Nat.eqb n 32 || Nat.eqb n 133 || Nat.eqb n 160.

Fixpoint lstrip (s : string) : string :=
  match s with
  | EmptyString => EmptyString
  | String c s' => if is_space c then lstrip s' else s
  end.

Fixpoint rstrip (s : string) : string :=
  match s with
  | EmptyString => EmptyString
  | String c s' =>
      match rstrip s' with
      | EmptyString => if is_space c then EmptyString else String c EmptyString
      | r => String c r
      end
  end.

(** [s.strip()]. *)
Definition strip (s : string) : string := rstrip (lstrip s).

(** [s.split(sep)] for a separator of one character. *)
Fixpoint split_on (sep : Ascii.ascii) (s : string) : list string :=
  match s with
  | EmptyString => [EmptyString]
  | String c s' =>
      if Ascii.eqb c sep then EmptyString :: split_on sep s'
      else match split_on sep s' with
           | x :: rest => String c x :: rest
           | [] => [String c EmptyString]
           end
  end.

Definition comma : Ascii.ascii := Ascii.ascii_of_nat 44.

Definition nonempty (s : string) : bool :=
  match s with EmptyString => false | _ => true end.

(** [[k.strip() for k in keyword_input.split(',') if k.strip()]]. *)
Definition parse_keywords (keyword_input : string) : list string :=
  List.map strip (List.filter (fun k => nonempty (strip k)) (split_on comma keyword_input)).

Definition default_keywords : string :=
  "Space Industry, Artificial Intelligence, Quantum Computing, Climate Change".

(** A string with no comma. *)
Fixpoint no_comma (s : string) : bool :=
  match s with
  | EmptyString => true
  | String c s' => negb (Ascii.eqb c comma) && no_comma s'
  end.

Definition first_is_space (s : string) : bool :=
  match s with EmptyString => false | String c _ => is_space c end.

Fixpoint last_is_space (s : string) : bool :=
  match s with
  | EmptyString => false
  | String c EmptyString => is_space c
  | String _ s' => last_is_space s'
  end.

(** A keyword as the comprehension yields them: not empty, no comma, no
    white space at either end. *)
Definition clean_keyword (k : string) : bool :=
  nonempty k && no_comma k && negb (first_is_space k) && negb (last_is_space k).

(** A string of white space only. *)
Fixpoint all_space (s : string) : bool :=
  match s with
  | EmptyString => true
  | String c s' => is_space c && all_space s'
  end.

(** A string of white space and commas only. *)
Fixpoint blank (s : string) : bool :=
  match s with
  | EmptyString => true
  | String c s' => (is_space c || Ascii.eqb c comma) && blank s'
  end.

(** An element for which [article_line] returns: a dict whose date, if
    any, can be sliced (a [str] or a [list]) and whose [fields], if any,
    is a dict. *)
Definition digestible (a : pyval) : bool :=
  match a with
  | PDict d =>
      match default (PStr "") (dict_get d "webPublicationDate") with
      | PStr _ | PList _ => true
      | _ => false
      end
      && match default (PDict []) (dict_get d "fields") with
         | PDict _ => true
         | _ => false
         end
  | _ => false
  end.

(** The title entry of the comparison prompt, for an article record. *)
Definition title_entry (a : pyval) : string := "- " +:+ title_of a.

(** The attribute as the article list shows it: [missing] when the record
    has no such key. *)
Definition attribute_or (missing : string) (d : list (string * pyval)) (k : string)
    : string :=
  match dict_get d k with
  | Some (PStr s) => s
  | _ => missing
  end.

(** The entry of the article list for an article record, as the display
    describes it. *)
Definition listed_article (a : pyval) : string :=
  match a with
  | PDict d =>
      "* **[" +:+ attribute_or "No Title" d "webTitle" +:+ "](<"
      +:+ attribute_or "#" d "webUrl" +:+ ">)** (_"
      +:+ String.substring 0 10 (attribute d "webPublicationDate") +:+ "_)  " +:+ nl
      +:+ "  "
      +:+ match dict_get d "fields" with
          | Some (PDict f) => attribute_or "No summary available" f "trailText"
          | _ => "No summary available"
          end
  | _ => ""
  end.

(** An article record whose [webUrl], where present, is a string too. *)
Definition listed_record (a : pyval) : bool :=
  article_record a
  && match a with PDict d => absent_or_str d "webUrl" | _ => false end.

Section Script.

Variable py_str : pyval -> string.
Variable http_get : nat -> string -> Z -> result response.
Variable chat_create : nat -> string -> result pyval.
Variable now : nat -> string.

(** The body of the loop over [report_data['current']]: the markdown of
    one article. *)
Definition article_markdown (article : pyval) : result string :=
  match py_get article "webPublicationDate" (PStr "") with
  | Raise e => Raise e
  | Ok date_value =>
      match py_slice10 date_value with
      | Raise e => Raise e
      | Ok date =>
          match py_get article "webTitle" (PStr "No Title") with
          | Raise e => Raise e
          | Ok headline =>
              match py_get article "webUrl" (PStr "#") with
              | Raise e => Raise e
              | Ok url =>
                  match py_get article "fields" (PDict []) with
                  | Raise e => Raise e
                  | Ok fields =>
                      match py_get fields "trailText" (PStr "No summary available") with
                      | Raise e => Raise e
                      | Ok trail_text =>
                          Ok ("* **[" +:+ fmt py_str headline +:+ "](<"
                              +:+ fmt py_str url +:+ ">)** (_" +:+ fmt py_str date
                              +:+ "_)  " +:+ nl +:+ "  " +:+ fmt py_str trail_text)
                      end
                  end
              end
          end
      end
  end.

(** The loop itself: the markdown shown, article after article, until
    one raises. *)
Fixpoint show_articles (articles : list pyval) : list string * result unit :=
  match articles with
  | [] => ([], Ok tt)
  | article :: articles =>
      match article_markdown article with
      | Raise e => ([], Raise e)
      | Ok markdown =>
          let '(shown_after, r) := show_articles articles in
          (markdown :: shown_after, r)
      end
  end.

(** [for article in report_data['current']: st.markdown(...)]. *)
Definition show_current (r : report) : list string * result unit :=
  match py_iter (current r) with
  | Raise e => ([], Raise e)
  | Ok articles => show_articles articles
  end.

(** The handler of the button "Run Search & Analysis". *)
Definition on_search (keywords : list string) : M unit :=
  match keywords with
  | _ :: _ => run_agent py_str http_get chat_create now keywords
  | [] => show Warning "Please enter keywords to analyze."
  end.

(** The handler of the button "Refresh & Compare Trends". *)
Definition on_refresh (keywords : list string) : M unit :=
  fun st =>
    match keywords with
    | _ :: _ =>
        if negb (Nat.eqb (size (reports st)) 0)
        then run_agent py_str http_get chat_create now keywords st
        else show Warning
               "No previous data available. Please run 'Search & Analysis' first." st
    | [] => show Warning "Please enter keywords to analyze." st
    end.

(** One execution of the script, from the keyword input to the two
    buttons, [search] and [refresh] telling which were pressed.  The
    title, the input field and the rule show nothing that depends on the
    state. *)
Definition rerun (keyword_input : string) (search refresh : bool) : M unit :=
  let keywords := parse_keywords keyword_input in
  (if search then on_search keywords else ret tt) ;;;
  (if refresh then on_refresh keywords else ret tt).

End Script.

(** A search endpoint whose second answer holds an article with a [null]
    date, and a session driven by the script. *)
Module Sample_script.

Definition undated : pyval :=
  PList [PDict [("webTitle", PStr "No date"); ("webPublicationDate", PNone)]].

Definition http_get (n : nat) (keyword : string) (page_size : Z) : result response :=
  match n with
  | 0 => Sample.success (Sample.envelope Sample.three)
  | _ => Sample.success (Sample.envelope undated)
  end.

Definition searched : state :=
  (rerun Sample.py_str Sample.http_get Sample.chat_create Sample.now
     "Quantum Computing" true false Sample.start).2.

End Sample_script.

Definition TREND_ERROR : string := "OpenAI Trend Analysis Error: ".
Definition SUMMARY_ERROR : string := "OpenAI Summary Report Generation Error: ".

(** The message a model call that raised leaves on the page. *)
Definition error_shown (prefix : string) (r : result pyval) : list (level * string) :=
  match r with
  | Raise e => [(Error, prefix +:+ exn_text e)]
  | Ok _ => []
  end.

(** Stores all of whose records hold articles the display can list. *)
Definition store_digestible (m : gmap string report) : Prop :=
  map_Forall
    (fun _ r => exists l, current r = PList l /\ forallb digestible l = true) m.

(** The states of a session as the script drives it: the store starts
    empty, the cache holds what [generate_analysis] stored, and the script
    is executed again at every interaction, with any input and either
    button pressed or none. *)
Inductive session (py_str : pyval -> string)
    (http_get : nat -> string -> Z -> result response)
    (chat_create : nat -> string -> result pyval)
    (now : nat -> string) : state -> Prop :=
| session_start st :
    reports st = ∅ ->
    cache_inv py_str chat_create (cache st) ->
    session py_str http_get chat_create now st
| session_rerun st keyword_input search refresh :
    session py_str http_get chat_create now st ->
    session py_str http_get chat_create now
      (rerun py_str http_get chat_create now keyword_input search refresh st).2.

(** * Properties *)

(** ** Equality of values *)

Section pyval_induction.
Variable P : pyval -> Prop.
Hypothesis HNone : P PNone.
Hypothesis HBool : forall b, P (PBool b).
Hypothesis HInt : forall z, P (PInt z).
Hypothesis HFloat : forall f, P (PFloat f).
Hypothesis HStr : forall s, P (PStr s).
Hypothesis HList : forall l, Forall P l -> P (PList l).
Hypothesis HDict : forall d, Forall (fun kv => P kv.2) d -> P (PDict d).

Lemma pyval_nested_ind : forall v : pyval, P v.
Proof.
  exact (fix pyval_nested_ind (v : pyval) : P v :=
  match v with
  | PNone => HNone
  | PBool b => HBool b
  | PInt z => HInt z
  | PFloat f => HFloat f
  | PStr s => HStr s
  | PList l =>
      HList l
        ((fix go (l : list pyval) : Forall P l :=
            match l with
            | [] => @List.Forall_nil _ P
            | x :: l => @List.Forall_cons _ P x l (pyval_nested_ind x) (go l)
            end) l)
  | PDict d =>
      HDict d
        ((fix go (d : list (string * pyval)) : Forall (fun kv => P kv.2) d :=
            match d with
            | [] => @List.Forall_nil _ (fun kv => P kv.2)
            | (k, x) :: d =>
                @List.Forall_cons _ (fun kv => P kv.2) (k, x) d
                  (pyval_nested_ind x) (go d)
            end) d)
  end).
Qed.
End pyval_induction.

Lemma spec_float_eqb_eq f g : spec_float_eqb f g = true <-> f = g.
Proof.
  destruct f, g; simpl; try (split; [discriminate | congruence]).
  - rewrite Bool.eqb_true_iff. split; congruence.
  - rewrite Bool.eqb_true_iff. split; congruence.
  - split; reflexivity.
  - rewrite !andb_true_iff, Bool.eqb_true_iff, Pos.eqb_eq, Z.eqb_eq.
    split; [intros [[-> ->] ->]; reflexivity | intros [= -> -> ->]; auto].
Qed.

Lemma pyval_eqb_eq v : forall w, pyval_eqb v w = true <-> v = w.
Proof.
  induction v as [| a | a | a | a | l IH | d IH] using pyval_nested_ind;
    intros [| b | b | b | b | l' | d']; simpl;
    try (split; [discriminate | congruence]).
  - split; reflexivity.
  - rewrite Bool.eqb_true_iff. split; congruence.
  - rewrite Z.eqb_eq. split; congruence.
  - rewrite spec_float_eqb_eq. split; congruence.
  - rewrite String.eqb_eq. split; congruence.
  - revert l'. induction IH as [| x l Hx _ IHl]; intros [| y l'];
      try (split; [discriminate | congruence]).
    + split; reflexivity.
    + rewrite andb_true_iff, Hx, IHl. split.
      * intros [-> [= ->]]. reflexivity.
      * intros [= -> ->]. auto.
  - revert d'. induction IH as [| [k x] d Hx _ IHd]; intros [| [k' y] d'];
      try (split; [discriminate | congruence]).
    + split; reflexivity.
    + simpl in Hx. rewrite !andb_true_iff, String.eqb_eq, Hx, IHd. split.
      * intros [[-> ->] [= ->]]. reflexivity.
      * intros [= -> -> ->]. auto.
Qed.

Lemma pyval_eqb_refl v : pyval_eqb v v = true.
Proof. apply pyval_eqb_eq. reflexivity. Qed.

(** ** Lines of a text *)

Lemma no_newline_app s t :
  no_newline (s +:+ t) = no_newline s && no_newline t.
Proof.
  induction s as [| c s IH]; simpl; [reflexivity |].
  rewrite IH, andb_assoc. reflexivity.
Qed.

Lemma no_newline_substring s : forall n m,
  no_newline s = true -> no_newline (String.substring n m s) = true.
Proof.
  induction s as [| c s IH]; intros n m H.
  - destruct n, m; reflexivity.
  - simpl in H. apply andb_true_iff in H as [Hc Hs].
    destruct n as [| n]; [destruct m as [| m] |]; simpl; auto.
    rewrite Hc. simpl. auto.
Qed.

Lemma segments_not_nil s : segments s <> [].
Proof.
  destruct s as [| c s]; simpl; [discriminate |].
  destruct (is_newline c); [discriminate |].
  destruct (segments s); discriminate.
Qed.

Lemma segments_single s : no_newline s = true -> segments s = [s].
Proof.
  induction s as [| c s IH]; simpl; [reflexivity |].
  intros H. apply andb_true_iff in H as [Hc Hs].
  apply negb_true_iff in Hc. rewrite Hc, (IH Hs). reflexivity.
Qed.

Lemma segments_app s t :
  no_newline s = true -> segments (s +:+ nl +:+ t) = s :: segments t.
Proof.
  induction s as [| c s IH]; simpl; [reflexivity |].
  intros H. apply andb_true_iff in H as [Hc Hs].
  apply negb_true_iff in Hc. rewrite Hc, (IH Hs). reflexivity.
Qed.

Lemma segments_join x ls :
  forallb no_newline (x :: ls) = true -> segments (join nl (x :: ls)) = x :: ls.
Proof.
  revert x. induction ls as [| y ls IH]; intros x H; simpl in H.
  - apply andb_true_iff in H as [Hx _]. apply segments_single. exact Hx.
  - apply andb_true_iff in H as [Hx Hy].
    change (join nl (x :: y :: ls)) with (x +:+ nl +:+ join nl (y :: ls)).
    rewrite (segments_app _ _ Hx), (IH y Hy). reflexivity.
Qed.

(** A text made of lines that are not empty and hold no newline has
    these lines. *)
Lemma lines_of_join ls :
  forallb no_newline ls = true ->
  Forall (fun x => x <> EmptyString) ls ->
  lines_of (join nl ls) = ls.
Proof.
  destruct ls as [| x ls]; [reflexivity |]. intros H Hne.
  unfold lines_of. destruct (join nl (x :: ls)) eqn:Hj.
  - exfalso. inversion Hne as [| ? ? Hx _]; subst. apply Hx.
    destruct ls; simpl in Hj; [exact Hj |].
    destruct x; [reflexivity | discriminate].
  - rewrite <- Hj. apply segments_join. exact H.
Qed.

Lemma digest_line_single a :
  single_line_record a = true -> no_newline (digest_line a) = true.
Proof.
  unfold single_line_record, digest_line. intros H.
  apply andb_true_iff in H as [H Hte]. apply andb_true_iff in H as [Hti Hd].
  rewrite !no_newline_app, Hti, Hte, (no_newline_substring _ 0 10 Hd). reflexivity.
Qed.

(** ** The functions, one by one *)

Section Facts.

Variable py_str : pyval -> string.
Variable http_get : nat -> string -> Z -> result response.
Variable chat_create : nat -> string -> result pyval.
Variable now : nat -> string.

#[local] Abbreviation guardian_search := (guardian_search http_get).
#[local] Abbreviation search_outcome := (search_outcome http_get).
#[local] Abbreviation search_value := (search_value http_get).
#[local] Abbreviation article_line := (article_line py_str).
#[local] Abbreviation article_texts := (article_texts py_str).
#[local] Abbreviation title_line := (title_line py_str).
#[local] Abbreviation previous_article_texts := (previous_article_texts py_str).
#[local] Abbreviation generate_analysis_body := (generate_analysis_body py_str chat_create).
#[local] Abbreviation generate_analysis := (generate_analysis py_str chat_create).
#[local] Abbreviation cache_inv := (cache_inv py_str chat_create).
#[local] Abbreviation run_keyword := (run_keyword py_str http_get chat_create now).
#[local] Abbreviation run_loop := (run_loop py_str http_get chat_create now).
#[local] Abbreviation run_agent := (run_agent py_str http_get chat_create now).
#[local] Abbreviation reachable := (reachable py_str http_get chat_create now).
#[local] Abbreviation later := (later py_str http_get chat_create now).
#[local] Abbreviation article_markdown := (article_markdown py_str).
#[local] Abbreviation show_articles := (show_articles py_str).
#[local] Abbreviation show_current := (show_current py_str).
#[local] Abbreviation on_search := (on_search py_str http_get chat_create now).
#[local] Abbreviation on_refresh := (on_refresh py_str http_get chat_create now).
#[local] Abbreviation rerun := (rerun py_str http_get chat_create now).
#[local] Abbreviation session := (session py_str http_get chat_create now).

(** *** [guardian_search] *)

Lemma guardian_search_eq keyword page_size st :
  guardian_search keyword page_size st =
  let st1 := with_http_log (http_log st ++ [(keyword, page_size)]) st in
  match search_outcome (length (http_log st)) keyword page_size with
  | Ok articles => (Ok articles, st1)
  | Raise e =>
      (Ok (PList []),
       with_shown (shown st ++ [(Error, search_error_message keyword e)]) st1)
  end.
Proof.
  unfold guardian_search, search_outcome, try_except, bind, lift,
    requests_get, show, ret, search_error_message.
  destruct (http_get _ _ _) as [r | e]; simpl; [| reflexivity].
  destruct (raise_for_status r); simpl; [| reflexivity].
  destruct (json_body r) as [data | e]; simpl; [| reflexivity].
  destruct (py_get data _ _) as [envelope | e]; simpl; [| reflexivity].
  destruct (py_get envelope _ _); reflexivity.
Qed.

Lemma guardian_search_value keyword page_size st :
  exists st',
    guardian_search keyword page_size st
    = (Ok (search_value (length (http_log st)) keyword page_size), st')
    /\ reports st' = reports st /\ cache st' = cache st
    /\ chat_log st' = chat_log st /\ clock st' = clock st
    /\ http_log st' = http_log st ++ [(keyword, page_size)].
Proof.
  rewrite guardian_search_eq. unfold search_value.
  destruct (search_outcome _ _ _); eexists; repeat split; reflexivity.
Qed.

(** *** The digests *)

Lemma comprehension_ok {A B} (f : A -> result B) (g : A -> B) (l : list A) :
  Forall (fun a => f a = Ok (g a)) l -> comprehension f l = Ok (map g l).
Proof.
  induction 1 as [| a l Ha _ IH]; simpl; [reflexivity |].
  rewrite Ha, IH. reflexivity.
Qed.

Lemma comprehension_inv {A B} (f : A -> result B) (l : list A) bs :
  comprehension f l = Ok bs -> Forall2 (fun a b => f a = Ok b) l bs.
Proof.
  revert bs. induction l as [| a l IH]; simpl; intros bs H.
  - injection H as <-. constructor.
  - destruct (f a) as [b |] eqn:Ha; [| discriminate].
    destruct (comprehension f l) as [bs' |]; [| discriminate].
    injection H as <-. constructor; auto.
Qed.

Lemma article_line_record a :
  article_record a = true -> article_line a = Ok (digest_line a).
Proof.
  destruct a as [| | | | | | d]; try discriminate. simpl.
  unfold absent_or_str, digest_line, title_of, date_of, teaser_of, attribute.
  intros H. apply andb_true_iff in H as [H Hf]. apply andb_true_iff in H as [Ht Hd].
  unfold article_line. simpl.
  destruct (dict_get d "webTitle") as [[]|]; try discriminate;
  destruct (dict_get d "webPublicationDate") as [[]|]; try discriminate;
  destruct (dict_get d "fields") as [[| | | | | | f]|]; try discriminate; simpl;
  try reflexivity;
  destruct (dict_get f "trailText") as [[]|]; try discriminate; reflexivity.
Qed.

Lemma article_line_dict a s : article_line a = Ok s -> is_dict a = true.
Proof. destruct a; simpl; try discriminate. reflexivity. Qed.

Lemma title_line_dict a : is_dict a = true -> exists s, title_line a = Ok s.
Proof. destruct a; try discriminate. intros _. eexists. reflexivity. Qed.

Lemma comprehension_title_lines l :
  forallb is_dict l = true -> exists ls, comprehension title_line l = Ok ls.
Proof.
  induction l as [| a l IH]; simpl; [eauto |].
  intros H. apply andb_true_iff in H as [Ha Hl].
  destruct (title_line_dict a Ha) as [s ->]. destruct (IH Hl) as [ls ->]. eauto.
Qed.

Lemma comprehension_article_dicts l ls :
  comprehension article_line l = Ok ls -> forallb is_dict l = true.
Proof.
  revert ls. induction l as [| a l IH]; simpl; intros ls H; [reflexivity |].
  destruct (article_line a) as [s |] eqn:Ha; [| discriminate].
  destruct (comprehension article_line l) as [ls' |]; [| discriminate].
  rewrite (article_line_dict a s Ha), (IH ls' eq_refl). reflexivity.
Qed.

(** A value that passes [if articles] and whose digest can be built is a
    non-empty list of dicts. *)
Lemma article_texts_truthy articles d :
  truthy articles = true -> article_texts articles = Ok d ->
  article_list articles = true.
Proof.
  unfold article_texts.
  destruct articles as [| | | | s | l | dd]; simpl; try discriminate.
  - destruct s as [| c s]; [discriminate |]. simpl. discriminate.
  - destruct l as [| a l]; [discriminate |]. intros _.
    destruct (comprehension article_line (a :: l)) as [ls |] eqn:H; [| discriminate].
    intros _. apply comprehension_article_dicts in H. exact H.
  - destruct dd as [| [k v] dd]; [discriminate |]. simpl. discriminate.
Qed.

Lemma article_list_truthy v : article_list v = true -> truthy v = true.
Proof. destruct v as [| | | | | [|] |]; simpl; congruence. Qed.

Lemma article_list_titles v :
  article_list v = true -> exists pd, previous_article_texts v = Ok pd.
Proof.
  destruct v as [| | | | | [| a l] |]; try discriminate. intros H.
  unfold previous_article_texts. simpl py_iter.
  destruct (comprehension_title_lines (a :: l) H) as [ls ->]. eauto.
Qed.

(** *** [generate_analysis] *)

Lemma body_no_previous keyword articles previous_articles st d :
  article_texts articles = Ok d ->
  truthy previous_articles = false ->
  exists st',
    generate_analysis_body keyword articles previous_articles st
    = (Ok (reply_or SUMMARY_FAILED
             (chat_create (length (chat_log st)) (summary_prompt keyword d)),
           PStr NO_PREVIOUS_DATA), st')
    /\ frame st st'
    /\ chat_log st' = chat_log st ++ [summary_prompt keyword d].
Proof.
  intros Hd Hp.
  unfold generate_analysis_body, bind, lift, try_except, chat_completion, show, ret.
  rewrite Hd, Hp. simpl.
  destruct (chat_create _ _); simpl; eexists; (split; [reflexivity |]);
    repeat split; reflexivity.
Qed.

Lemma body_with_previous keyword articles previous_articles st d pd :
  article_texts articles = Ok d ->
  truthy previous_articles = true ->
  previous_article_texts previous_articles = Ok pd ->
  exists st',
    generate_analysis_body keyword articles previous_articles st
    = (Ok (reply_or SUMMARY_FAILED
             (chat_create (S (length (chat_log st))) (summary_prompt keyword d)),
           reply_or NO_PREVIOUS_DATA
             (chat_create (length (chat_log st)) (comparison_prompt keyword pd d))),
       st')
    /\ frame st st'
    /\ chat_log st'
       = chat_log st ++ [comparison_prompt keyword pd d; summary_prompt keyword d].
Proof.
  intros Hd Hp Hpd.
  unfold generate_analysis_body, bind, lift, try_except, chat_completion, show, ret.
  rewrite Hd, Hp, Hpd. simpl.
  destruct (chat_create (length (chat_log st)) _); simpl;
    rewrite length_app, Nat.add_1_r;
    destruct (chat_create (S (length (chat_log st))) _); simpl;
    eexists; (split; [reflexivity |]); repeat split;
    simpl; rewrite <- app_assoc; reflexivity.
Qed.

Lemma body_raises keyword articles previous_articles st e st' :
  generate_analysis_body keyword articles previous_articles st = (Raise e, st') ->
  st' = st
  /\ (article_texts articles = Raise e
      \/ exists d, article_texts articles = Ok d
                   /\ truthy previous_articles = true
                   /\ previous_article_texts previous_articles = Raise e).
Proof.
  destruct (article_texts articles) as [d | e0] eqn:Hd.
  - destruct (truthy previous_articles) eqn:Hp.
    + destruct (previous_article_texts previous_articles) as [pd | e1] eqn:Hpd.
      * destruct (body_with_previous keyword _ _ st d pd Hd Hp Hpd) as (? & -> & _).
        discriminate.
      * unfold generate_analysis_body, bind, lift. rewrite Hd, Hp, Hpd. simpl.
        intros [= <- <-]. split; [reflexivity |]. right. eauto.
    + destruct (body_no_previous keyword _ _ st d Hd Hp) as (? & -> & _).
      discriminate.
  - unfold generate_analysis_body, bind, lift. rewrite Hd. simpl.
    intros [= <- <-]. auto.
Qed.

Lemma body_returns keyword articles previous_articles st v st' :
  generate_analysis_body keyword articles previous_articles st = (Ok v, st') ->
  (exists d, article_texts articles = Ok d)
  /\ (truthy previous_articles = false -> v.2 = PStr NO_PREVIOUS_DATA)
  /\ frame st st'.
Proof.
  destruct (article_texts articles) as [d | e0] eqn:Hd.
  - destruct (truthy previous_articles) eqn:Hp.
    + destruct (previous_article_texts previous_articles) as [pd | e1] eqn:Hpd.
      * destruct (body_with_previous keyword _ _ st d pd Hd Hp Hpd) as (? & -> & F & _).
        intros [= <- <-]. split; [eauto |]. split; [discriminate | exact F].
      * unfold generate_analysis_body, bind, lift. rewrite Hd, Hp, Hpd. discriminate.
    + destruct (body_no_previous keyword _ _ st d Hd Hp) as (? & -> & F & _).
      intros [= <- <-]. split; [eauto |]. split; [reflexivity | exact F].
  - unfold generate_analysis_body, bind, lift. rewrite Hd. discriminate.
Qed.

(** *** The cache *)

Lemma key_eqb_eq keyword articles previous_articles e :
  key_eqb keyword articles previous_articles e = true <->
  c_keyword e = keyword /\ c_articles e = articles /\ c_previous e = previous_articles.
Proof.
  unfold key_eqb. rewrite !andb_true_iff, String.eqb_eq, !pyval_eqb_eq.
  intuition congruence.
Qed.

Lemma cache_lookup_Some keyword articles previous_articles c e :
  cache_lookup keyword articles previous_articles c = Some e ->
  In e c /\ c_keyword e = keyword /\ c_articles e = articles
  /\ c_previous e = previous_articles.
Proof.
  unfold cache_lookup. intros H. apply find_some in H as [Hin Hk].
  apply key_eqb_eq in Hk. tauto.
Qed.

Lemma cache_inv_lookup keyword articles previous_articles c e :
  cache_inv c ->
  cache_lookup keyword articles previous_articles c = Some e ->
  exists st0 st1,
    generate_analysis_body keyword articles previous_articles st0
    = (Ok (c_value e), st1).
Proof.
  intros Hc H. apply cache_lookup_Some in H as (Hin & <- & <- & <-).
  unfold cache_inv in Hc. rewrite List.Forall_forall in Hc. exact (Hc e Hin).
Qed.

Lemma generate_analysis_hit keyword articles previous_articles st e :
  cache_lookup keyword articles previous_articles (cache st) = Some e ->
  generate_analysis keyword articles previous_articles st
  = (Ok (c_value e), with_shown (shown st ++ c_replay e) st).
Proof. unfold generate_analysis. intros ->. reflexivity. Qed.

Lemma generate_analysis_miss keyword articles previous_articles st :
  cache_lookup keyword articles previous_articles (cache st) = None ->
  generate_analysis keyword articles previous_articles st
  = match generate_analysis_body keyword articles previous_articles st with
    | (Ok v, st') =>
        (Ok v,
         with_cache
           ({| c_keyword := keyword; c_articles := articles;
               c_previous := previous_articles; c_value := v;
               c_replay := drop (length (shown st)) (shown st') |}
            :: cache st') st')
    | (Raise e, st') => (Raise e, st')
    end.
Proof. unfold generate_analysis. intros ->. reflexivity. Qed.

(** Whatever the call does, the store, the requests and the clock are as
    before. *)
Lemma generate_analysis_frame keyword articles previous_articles st :
  let st' := (generate_analysis keyword articles previous_articles st).2 in
  reports st' = reports st /\ http_log st' = http_log st /\ clock st' = clock st.
Proof.
  destruct (cache_lookup keyword articles previous_articles (cache st)) as [e |] eqn:Hl.
  - rewrite (generate_analysis_hit _ _ _ _ _ Hl). simpl. auto.
  - rewrite (generate_analysis_miss _ _ _ _ Hl).
    destruct (generate_analysis_body keyword articles previous_articles st)
      as [[v | e] st1] eqn:Hb; simpl.
    + destruct (body_returns _ _ _ _ _ _ Hb) as (_ & _ & Hr & Hca & Hh & Hk). auto.
    + apply body_raises in Hb as [-> _]. auto.
Qed.

(** The cache still holds only values the body returned. *)
Lemma generate_analysis_cache_inv keyword articles previous_articles st :
  cache_inv (cache st) ->
  cache_inv (cache (generate_analysis keyword articles previous_articles st).2).
Proof.
  intros Hc.
  destruct (cache_lookup keyword articles previous_articles (cache st)) as [e |] eqn:Hl.
  - rewrite (generate_analysis_hit _ _ _ _ _ Hl). exact Hc.
  - rewrite (generate_analysis_miss _ _ _ _ Hl).
    destruct (generate_analysis_body keyword articles previous_articles st)
      as [[v | e] st1] eqn:Hb; simpl.
    + destruct (body_returns _ _ _ _ _ _ Hb) as (_ & _ & Hr & Hca & Hh & Hk).
      constructor; [simpl; eauto |]. rewrite Hca. exact Hc.
    + apply body_raises in Hb as [-> _]. exact Hc.
Qed.

(** A call that returns was given articles whose digest can be built. *)
Lemma generate_analysis_returns keyword articles previous_articles st v st' :
  cache_inv (cache st) ->
  generate_analysis keyword articles previous_articles st = (Ok v, st') ->
  (exists d, article_texts articles = Ok d)
  /\ (truthy previous_articles = false -> v.2 = PStr NO_PREVIOUS_DATA).
Proof.
  intros Hc.
  destruct (cache_lookup keyword articles previous_articles (cache st)) as [e |] eqn:Hl.
  - rewrite (generate_analysis_hit _ _ _ _ _ Hl). intros [= <- _].
    destruct (cache_inv_lookup _ _ _ _ _ Hc Hl) as (st0 & st1 & Hb).
    apply body_returns in Hb as (Hd & Hp & _). auto.
  - rewrite (generate_analysis_miss _ _ _ _ Hl).
    destruct (generate_analysis_body keyword articles previous_articles st)
      as [[v' | e] st1] eqn:Hb; [| discriminate].
    intros [= <- _]. apply body_returns in Hb as (Hd & Hp & _). auto.
Qed.

(** A call whose digests can be built returns. *)
Lemma generate_analysis_total keyword articles previous_articles st d :
  article_texts articles = Ok d ->
  (truthy previous_articles = true ->
   exists pd, previous_article_texts previous_articles = Ok pd) ->
  exists v st', generate_analysis keyword articles previous_articles st = (Ok v, st').
Proof.
  intros Hd Hpd.
  destruct (cache_lookup keyword articles previous_articles (cache st)) as [e |] eqn:Hl.
  - rewrite (generate_analysis_hit _ _ _ _ _ Hl). eauto.
  - rewrite (generate_analysis_miss _ _ _ _ Hl).
    destruct (truthy previous_articles) eqn:Hp.
    + destruct (Hpd eq_refl) as [pd Hpd'].
      destruct (body_with_previous keyword _ _ st d pd Hd Hp Hpd') as (? & -> & _).
      eauto.
    + destruct (body_no_previous keyword _ _ st d Hd Hp) as (? & -> & _). eauto.
Qed.

(** *** [run_agent] *)

Lemma run_keyword_eq keyword new_reports st :
  run_keyword keyword new_reports st =
  let articles := search_value (length (http_log st)) keyword 10 in
  let st1 := (guardian_search keyword 10 st).2 in
  if truthy articles then
    let previous_articles := prior_current (reports st1) keyword in
    match generate_analysis keyword articles previous_articles st1 with
    | (Ok (current_summary, trend_change), st2) =>
        (Ok (<[keyword :=
                 {| current := articles;
                    previous := if truthy previous_articles then previous_articles
                                else PList [];
                    current_summary := current_summary;
                    trend_change := trend_change;
                    last_updated := now (clock st2) |}]> new_reports),
         with_clock (S (clock st2)) st2)
    | (Raise e, st2) => (Raise e, st2)
    end
  else
    (Ok new_reports,
     with_shown (shown st1 ++ [(Warning, no_articles_message keyword)]) st1).
Proof.
  unfold run_keyword, bind.
  destruct (guardian_search_value keyword 10 st) as (st1 & -> & _). simpl.
  destruct (truthy _); simpl; [| reflexivity].
  unfold get_reports, prior_current. simpl.
  destruct (generate_analysis _ _ _ st1) as [[[cs tc] | e] st2]; reflexivity.
Qed.

Lemma run_keyword_frame keyword new_reports st :
  let st' := (run_keyword keyword new_reports st).2 in
  reports st' = reports st
  /\ http_log st' = http_log st ++ [(keyword, 10%Z)]
  /\ (cache_inv (cache st) -> cache_inv (cache st')).
Proof.
  rewrite run_keyword_eq.
  destruct (guardian_search_value keyword 10 st) as (st1 & -> & Hr & Hc & _ & _ & Hh).
  simpl. destruct (truthy _); simpl; [| rewrite Hc; auto].
  pose proof (generate_analysis_frame keyword
    (search_value (length (http_log st)) keyword 10)
    (prior_current (reports st1) keyword) st1) as (Hr2 & Hh2 & _).
  pose proof (generate_analysis_cache_inv keyword
    (search_value (length (http_log st)) keyword 10)
    (prior_current (reports st1) keyword) st1) as Hc2.
  destruct (generate_analysis _ _ _ st1) as [[[cs tc] | e] st2]; simpl in *;
    rewrite Hr2, Hh2, Hr, Hh; rewrite Hc in Hc2; auto.
Qed.

(** A keyword whose search gave nothing leaves the batch as it was. *)
Lemma run_keyword_nothing keyword new_reports st :
  truthy (search_value (length (http_log st)) keyword 10) = false ->
  (run_keyword keyword new_reports st).1 = Ok new_reports.
Proof. intros H. rewrite run_keyword_eq. simpl. rewrite H. reflexivity. Qed.

(** A keyword whose search gave something adds one record to the batch. *)
Lemma run_keyword_something keyword new_reports st new_reports' st' :
  truthy (search_value (length (http_log st)) keyword 10) = true ->
  run_keyword keyword new_reports st = (Ok new_reports', st') ->
  exists r,
    new_reports' = <[keyword := r]> new_reports
    /\ current r = search_value (length (http_log st)) keyword 10
    /\ previous r = (if truthy (prior_current (reports st) keyword)
                     then prior_current (reports st) keyword else PList [])
    /\ (cache_inv (cache st) -> article_list (current r) = true).
Proof.
  intros Ht. rewrite run_keyword_eq. simpl. rewrite Ht.
  destruct (guardian_search_value keyword 10 st) as (st1 & -> & Hr & Hc & _ & _ & Hh).
  simpl. rewrite Hr.
  destruct (generate_analysis _ _ _ st1) as [[[cs tc] | e] st2] eqn:Hg; [| discriminate].
  intros [= <- <-]. eexists. split; [reflexivity |]. simpl.
  repeat split. intros Hci. rewrite <- Hc in Hci.
  destruct (generate_analysis_returns _ _ _ _ _ _ Hci Hg) as [[d Hd] _].
  eapply article_texts_truthy; eauto.
Qed.

Lemma article_records_texts v :
  article_records v = true ->
  article_texts v
  = Ok (join nl (map digest_line match v with PList l => l | _ => [] end)).
Proof.
  destruct v as [| | | | | l |]; try discriminate. simpl. intros H.
  unfold article_texts, py_iter. cbv beta iota.
  rewrite (comprehension_ok article_line digest_line); [reflexivity |].
  apply List.Forall_forall. intros a Ha. apply article_line_record.
  rewrite forallb_forall in H. auto.
Qed.

Lemma store_inv_titles m keyword :
  store_inv m ->
  truthy (prior_current m keyword) = true ->
  exists pd, previous_article_texts (prior_current m keyword) = Ok pd.
Proof.
  unfold prior_current. intros Hm.
  destruct (m !! keyword) as [r |] eqn:Hr; [| discriminate].
  intros _. apply article_list_titles.
  apply Hm in Hr. apply andb_true_iff in Hr as [H _]. exact H.
Qed.

Lemma store_inv_previous m keyword :
  store_inv m ->
  exists l, (if truthy (prior_current m keyword)
             then prior_current m keyword else PList []) = PList l.
Proof.
  unfold prior_current. intros Hm.
  destruct (m !! keyword) as [r |] eqn:Hr; [| simpl; eauto].
  apply Hm in Hr. apply andb_true_iff in Hr as [H _].
  rewrite (article_list_truthy _ H).
  destruct (current r); try discriminate. eauto.
Qed.

(** When the search answers as documented and the store is one the
    orchestrator made, the body of the loop returns. *)
Lemma run_keyword_total keyword new_reports st :
  store_inv (reports st) ->
  article_records (search_value (length (http_log st)) keyword 10) = true ->
  exists new_reports' st',
    run_keyword keyword new_reports st = (Ok new_reports', st').
Proof.
  intros Hm Ha. rewrite run_keyword_eq. simpl.
  destruct (truthy _) eqn:Ht; [| eauto].
  destruct (guardian_search_value keyword 10 st) as (st1 & -> & Hr & _). simpl.
  apply article_records_texts in Ha.
  destruct (generate_analysis_total keyword _ (prior_current (reports st1) keyword)
              st1 _ Ha) as ([cs tc] & st2 & ->); [| eauto].
  rewrite Hr. apply store_inv_titles. exact Hm.
Qed.

Lemma run_loop_cons keyword keywords new_reports st :
  run_loop (keyword :: keywords) new_reports st =
  match run_keyword keyword new_reports st with
  | (Ok new_reports', st') => run_loop keywords new_reports' st'
  | (Raise e, st') => (Raise e, st')
  end.
Proof. reflexivity. Qed.

(** The loop never writes the store. *)
Lemma run_loop_frame keywords : forall new_reports st,
  let st' := (run_loop keywords new_reports st).2 in
  reports st' = reports st /\ (cache_inv (cache st) -> cache_inv (cache st')).
Proof.
  induction keywords as [| k ks IH]; intros acc st; [simpl; auto |].
  rewrite run_loop_cons.
  pose proof (run_keyword_frame k acc st) as (Hr & _ & Hc).
  destruct (run_keyword k acc st) as [[acc1 | e] st1]; simpl in *; [| auto].
  destruct (IH acc1 st1) as [Hr' Hc']. simpl in *.
  rewrite Hr', Hr. auto.
Qed.

(** The batch has no entry but for the keywords of the run. *)
Lemma run_loop_dom keywords : forall new_reports st new_reports' st' k,
  run_loop keywords new_reports st = (Ok new_reports', st') ->
  is_Some (new_reports' !! k) -> is_Some (new_reports !! k) \/ k ∈ keywords.
Proof.
  induction keywords as [| k0 ks IH]; intros acc st new st' k.
  - intros [= <- _]. auto.
  - rewrite run_loop_cons.
    destruct (run_keyword k0 acc st) as [[acc1 | e] st1] eqn:Hk; [| discriminate].
    intros Hl Hs. destruct (IH _ _ _ _ _ Hl Hs) as [H | H]; [| right; set_solver].
    destruct (truthy (search_value (length (http_log st)) k0 10)) eqn:Ht.
    + destruct (run_keyword_something _ _ _ _ _ Ht Hk) as (r & -> & _).
      destruct (decide (k0 = k)) as [-> | Hne]; [right; set_solver |].
      rewrite lookup_insert_ne in H by done. auto.
    + pose proof (run_keyword_nothing k0 acc st Ht) as Hn. rewrite Hk in Hn.
      injection Hn as ->. auto.
Qed.

(** A keyword all of whose searches gave nothing has, in the batch, the
    entry it had. *)
Lemma run_loop_untouched k keywords : forall new_reports st new_reports' st' n,
  length (http_log st) = n ->
  (forall j, keywords !! j = Some k ->
             truthy (search_value (n + j) k 10) = false) ->
  run_loop keywords new_reports st = (Ok new_reports', st') ->
  new_reports' !! k = new_reports !! k.
Proof.
  induction keywords as [| k0 ks IH]; intros acc st new st' n Hn Hj.
  - intros [= <- _]. reflexivity.
  - rewrite run_loop_cons.
    destruct (run_keyword k0 acc st) as [[acc1 | e] st1] eqn:Hk; [| discriminate].
    intros Hl.
    pose proof (run_keyword_frame k0 acc st) as (_ & Hh & _). rewrite Hk in Hh.
    simpl in Hh.
    erewrite (IH acc1 st1 new st' (S n)); eauto.
    + destruct (truthy (search_value (length (http_log st)) k0 10)) eqn:Ht.
      * destruct (run_keyword_something _ _ _ _ _ Ht Hk) as (r & -> & _).
        destruct (decide (k0 = k)) as [-> | Hne].
        -- specialize (Hj 0 eq_refl). rewrite Nat.add_0_r, <- Hn, Ht in Hj.
           discriminate.
        -- apply lookup_insert_ne. done.
      * pose proof (run_keyword_nothing k0 acc st Ht) as Hn'. rewrite Hk in Hn'.
        injection Hn' as ->. reflexivity.
    + rewrite Hh, length_app, Hn. simpl. lia.
    + intros j Hjk. specialize (Hj (S j) Hjk).
      rewrite Nat.add_succ_r in Hj. exact Hj.
Qed.

(** The entry of a keyword in the batch comes from its last search that
    gave something. *)
Lemma run_loop_last k keywords : forall i new_reports st new_reports' st' n,
  length (http_log st) = n ->
  keywords !! i = Some k ->
  truthy (search_value (n + i) k 10) = true ->
  (forall j, i < j -> keywords !! j = Some k ->
             truthy (search_value (n + j) k 10) = false) ->
  run_loop keywords new_reports st = (Ok new_reports', st') ->
  exists r,
    new_reports' !! k = Some r
    /\ current r = search_value (n + i) k 10
    /\ previous r = (if truthy (prior_current (reports st) k)
                     then prior_current (reports st) k else PList []).
Proof.
  induction keywords as [| k0 ks IH]; intros i acc st new st' n Hn Hi Ht Hj;
    [discriminate |].
  rewrite run_loop_cons.
  destruct (run_keyword k0 acc st) as [[acc1 | e] st1] eqn:Hk; [| discriminate].
  intros Hl.
  pose proof (run_keyword_frame k0 acc st) as (Hr & Hh & _). rewrite Hk in Hr, Hh.
  simpl in Hr, Hh.
  assert (Hn1 : length (http_log st1) = S n)
    by (rewrite Hh, length_app, Hn; simpl; lia).
  destruct i as [| i].
  - injection Hi as ->. rewrite Nat.add_0_r in *. rewrite <- Hn in Ht.
    destruct (run_keyword_something _ _ _ _ _ Ht Hk) as (r & -> & Hc & Hp & _).
    exists r. rewrite <- Hn. split; [| auto].
    assert (Hj' : forall j, ks !! j = Some k ->
                            truthy (search_value (S n + j) k 10) = false).
    { intros j Hjk. specialize (Hj (S j) ltac:(lia) Hjk).
      rewrite Nat.add_succ_r in Hj. exact Hj. }
    rewrite (run_loop_untouched k ks _ _ _ _ (S n) Hn1 Hj' Hl).
    apply lookup_insert_eq.
  - rewrite Nat.add_succ_r in *.
    destruct (IH i acc1 st1 new st' (S n) Hn1 Hi Ht) as (r & H1 & H2 & H3); auto.
    + intros j Hlt Hjk. specialize (Hj (S j) ltac:(lia) Hjk).
      rewrite Nat.add_succ_r in Hj. exact Hj.
    + exists r. rewrite Hr in H3. auto.
Qed.

Lemma run_loop_total keywords : forall new_reports st n,
  length (http_log st) = n ->
  store_inv (reports st) ->
  (forall j k, keywords !! j = Some k ->
               article_records (search_value (n + j) k 10) = true) ->
  exists new_reports' st', run_loop keywords new_reports st = (Ok new_reports', st').
Proof.
  induction keywords as [| k0 ks IH]; intros acc st n Hn Hm Hj; [simpl; eauto |].
  rewrite run_loop_cons.
  destruct (run_keyword_total k0 acc st Hm) as (acc1 & st1 & Hk).
  { rewrite Hn, <- (Nat.add_0_r n). apply Hj. reflexivity. }
  pose proof (run_keyword_frame k0 acc st) as (Hr & Hh & _). rewrite Hk in Hr, Hh.
  simpl in Hr, Hh. rewrite Hk.
  apply (IH acc1 st1 (S n)).
  - rewrite Hh, length_app, Hn. simpl. lia.
  - rewrite Hr. exact Hm.
  - intros j k Hjk. specialize (Hj (S j) k Hjk). rewrite Nat.add_succ_r in Hj.
    exact Hj.
Qed.

(** Every record of the batch was there before the loop or is one the
    loop built, and those are well formed. *)
Lemma run_loop_records keywords : forall new_reports st new_reports' st',
  cache_inv (cache st) ->
  store_inv (reports st) ->
  run_loop keywords new_reports st = (Ok new_reports', st') ->
  forall k r, new_reports' !! k = Some r ->
    new_reports !! k = Some r
    \/ (report_ok r = true /\ (reports st !! k = None -> previous r = PList [])).
Proof.
  induction keywords as [| k0 ks IH]; intros acc st new st' Hc Hm.
  - intros [= <- _]. auto.
  - rewrite run_loop_cons.
    destruct (run_keyword k0 acc st) as [[acc1 | e] st1] eqn:Hk; [| discriminate].
    intros Hl k r Hkr.
    pose proof (run_keyword_frame k0 acc st) as (Hr & _ & Hc1). rewrite Hk in Hr, Hc1.
    simpl in Hr, Hc1.
    destruct (IH acc1 st1 new st' (Hc1 Hc) ltac:(rewrite Hr; exact Hm) Hl k r Hkr)
      as [H | H]; [| rewrite Hr in H; auto].
    destruct (truthy (search_value (length (http_log st)) k0 10)) eqn:Ht.
    + destruct (run_keyword_something _ _ _ _ _ Ht Hk) as (r0 & -> & Hcur & Hprev & Hal).
      destruct (decide (k0 = k)) as [-> | Hne].
      * rewrite lookup_insert_eq in H. injection H as ->. right. split.
        -- unfold report_ok. rewrite (Hal Hc), Hprev.
           destruct (store_inv_previous (reports st) k Hm) as [l ->]. reflexivity.
        -- intros Hnone. rewrite Hprev. unfold prior_current. rewrite Hnone.
           reflexivity.
      * rewrite lookup_insert_ne in H by done. auto.
    + pose proof (run_keyword_nothing k0 acc st Ht) as Hn. rewrite Hk in Hn.
      injection Hn as ->. auto.
Qed.

Lemma run_agent_eq keywords st :
  run_agent keywords st =
  let st0 :=
    with_shown
      (shown st ++ [(Info, "Searching for new data and generating analysis reports. Please wait..."%string)])
      st in
  match run_loop keywords ∅ st0 with
  | (Ok new_reports, st1) =>
      (Ok tt,
       with_shown (shown st1 ++ [(Success, "Data search and analysis completed!"%string)])
         (with_reports (new_reports ∪ reports st1) st1))
  | (Raise e, st1) => (Raise e, st1)
  end.
Proof.
  unfold run_agent, bind, show, update_reports. simpl.
  destruct (run_loop keywords ∅ _) as [[new | e] st1]; reflexivity.
Qed.

(** A run keeps the two invariants. *)
Lemma run_agent_inv keywords st :
  store_inv (reports st) -> cache_inv (cache st) ->
  let st' := (run_agent keywords st).2 in
  store_inv (reports st') /\ cache_inv (cache st')
  /\ forall k r, reports st !! k = None -> reports st' !! k = Some r ->
                 previous r = PList [].
Proof.
  intros Hm Hc. rewrite run_agent_eq. simpl.
  set (st0 := with_shown _ st).
  pose proof (run_loop_frame keywords ∅ st0) as (Hr & Hc1).
  destruct (run_loop keywords ∅ st0) as [[new | e] st1] eqn:Hl; simpl in *.
  - rewrite Hr. split; [| split; [auto |]].
    + intros k r Hk. apply lookup_union_Some_raw in Hk as [Hk | [_ Hk]]; [| eauto].
      destruct (run_loop_records keywords ∅ st0 new st1 Hc Hm Hl k r Hk) as [H | [H _]];
        [| exact H].
      rewrite lookup_empty in H. discriminate.
    + intros k r Hnone Hk.
      apply lookup_union_Some_raw in Hk as [Hk | [_ Hk]]; [| congruence].
      destruct (run_loop_records keywords ∅ st0 new st1 Hc Hm Hl k r Hk) as [H | [_ H]];
        [| auto].
      rewrite lookup_empty in H. discriminate.
  - rewrite Hr. split; [exact Hm | split; [auto |]]. congruence.
Qed.

Lemma reachable_inv st :
  reachable st -> store_inv (reports st) /\ cache_inv (cache st).
Proof.
  induction 1 as [st Hr Hc | st keywords _ [Hm Hc]].
  - split; [| exact Hc]. rewrite Hr. apply map_Forall_empty.
  - destruct (run_agent_inv keywords st Hm Hc) as (? & ? & _). auto.
Qed.

(** *** Entries of the cache stay *)

Lemma generate_analysis_keeps keyword articles previous_articles st k a p e :
  cache_lookup k a p (cache st) = Some e ->
  cache_lookup k a p
    (cache (generate_analysis keyword articles previous_articles st).2) = Some e.
Proof.
  intros He.
  destruct (cache_lookup keyword articles previous_articles (cache st)) as [e' |] eqn:Hl.
  - rewrite (generate_analysis_hit _ _ _ _ _ Hl). exact He.
  - rewrite (generate_analysis_miss _ _ _ _ Hl).
    destruct (generate_analysis_body keyword articles previous_articles st)
      as [[v | x] st1] eqn:Hb; simpl.
    + destruct (body_returns _ _ _ _ _ _ Hb) as (_ & _ & _ & Hca & _).
      rewrite Hca. unfold cache_lookup. simpl.
      destruct (key_eqb k a p _) eqn:Hkey; [| exact He].
      apply key_eqb_eq in Hkey as (Hk & Ha & Hp). simpl in *. subst.
      congruence.
    + apply body_raises in Hb as [-> _]. exact He.
Qed.

Lemma run_loop_keeps keywords k a p e : forall new_reports st,
  cache_lookup k a p (cache st) = Some e ->
  cache_lookup k a p (cache (run_loop keywords new_reports st).2) = Some e.
Proof.
  induction keywords as [| k0 ks IH]; intros acc st He; [exact He |].
  rewrite run_loop_cons.
  assert (H1 : cache_lookup k a p (cache (run_keyword k0 acc st).2) = Some e).
  { rewrite run_keyword_eq.
    destruct (guardian_search_value k0 10 st) as (st1 & -> & _ & Hc & _). simpl.
    rewrite <- Hc in He.
    destruct (truthy _); simpl; [| exact He].
    pose proof (generate_analysis_keeps k0
      (search_value (length (http_log st)) k0 10)
      (prior_current (reports st1) k0) st1 k a p e He) as Hg.
    destruct (generate_analysis _ _ _ st1) as [[[cs tc] | x] st2]; exact Hg. }
  destruct (run_keyword k0 acc st) as [[acc1 | x] st1]; simpl in *; auto.
Qed.

Lemma run_agent_keeps keywords st k a p e :
  cache_lookup k a p (cache st) = Some e ->
  cache_lookup k a p (cache (run_agent keywords st).2) = Some e.
Proof.
  intros He. rewrite run_agent_eq. simpl.
  set (st0 := with_shown _ st).
  pose proof (run_loop_keeps keywords k a p e ∅ st0 He) as H.
  destruct (run_loop keywords ∅ st0) as [[new | x] st1]; exact H.
Qed.

Lemma later_keeps st st' k a p e :
  later st st' ->
  cache_lookup k a p (cache st) = Some e ->
  cache_lookup k a p (cache st') = Some e.
Proof.
  induction 1 as [| st' k0 a0 p0 _ IH | st' kws _ IH]; intros He.
  - exact He.
  - apply generate_analysis_keeps, IH, He.
  - apply run_agent_keeps, IH, He.
Qed.

(** A call that returned has left its value in the cache. *)
Lemma generate_analysis_stores keyword articles previous_articles st v st' :
  generate_analysis keyword articles previous_articles st = (Ok v, st') ->
  exists e,
    cache_lookup keyword articles previous_articles (cache st') = Some e
    /\ c_value e = v.
Proof.
  destruct (cache_lookup keyword articles previous_articles (cache st)) as [e |] eqn:Hl.
  - rewrite (generate_analysis_hit _ _ _ _ _ Hl). intros [= <- <-]. eauto.
  - rewrite (generate_analysis_miss _ _ _ _ Hl).
    destruct (generate_analysis_body keyword articles previous_articles st)
      as [[v' | x] st1]; [| discriminate].
    intros [= <- <-]. eexists. split.
    + unfold cache_lookup. simpl. unfold key_eqb. simpl.
      rewrite String.eqb_refl, !pyval_eqb_refl. reflexivity.
    + reflexivity.
Qed.

(** ** The claims *)

(** C1. Re-running the orchestrator for a keyword that has a record, when
    the search gives something, rotates the record: in a store the
    orchestrator made, and with searches that answer lists of article
    records, the run returns, and the keyword's record has for [previous]
    the [current] it had before the run and for [current] the list the
    search gave (the last search of the run that gave something, when the
    keyword is listed more than once). *)
Theorem rerun_rotates_current keywords st k r i :
  store_inv (reports st) ->
  (forall j k', keywords !! j = Some k' ->
     article_records (search_value (length (http_log st) + j) k' 10) = true) ->
  reports st !! k = Some r ->
  keywords !! i = Some k ->
  truthy (search_value (length (http_log st) + i) k 10) = true ->
  (forall j, i < j -> keywords !! j = Some k ->
     truthy (search_value (length (http_log st) + j) k 10) = false) ->
  exists st' r',
    run_agent keywords st = (Ok tt, st')
    /\ reports st' !! k = Some r'
    /\ previous r' = current r
    /\ current r' = search_value (length (http_log st) + i) k 10.
Proof.
  intros Hm Hall Hr Hi Ht Hj. rewrite run_agent_eq. simpl.
  set (st0 := with_shown _ st).
  destruct (run_loop_total keywords ∅ st0 (length (http_log st)) eq_refl Hm Hall)
    as (new & st1 & Hl).
  rewrite Hl.
  destruct (run_loop_last k keywords i ∅ st0 new st1 _ eq_refl Hi Ht Hj Hl)
    as (r' & Hnew & Hcur & Hprev).
  exists (with_shown (shown st1 ++ [(Success, "Data search and analysis completed!"%string)])
            (with_reports (new ∪ reports st1) st1)), r'.
  split; [reflexivity |]. simpl. split; [| split; [| exact Hcur]].
  - apply lookup_union_Some_l. exact Hnew.
  - rewrite Hprev. simpl. unfold prior_current. rewrite Hr.
    apply Hm in Hr. apply andb_true_iff in Hr as [Ha _].
    rewrite (article_list_truthy _ Ha). reflexivity.
Qed.

(** C2. A keyword all of whose searches in a run give nothing (an empty
    list, or any value that [not articles] takes for empty) has after the
    run the entry it had before it, or none if it had none; this holds
    whether the run returns or raises. *)
Theorem empty_fetch_keeps_entry keywords st k :
  (forall j, keywords !! j = Some k ->
     truthy (search_value (length (http_log st) + j) k 10) = false) ->
  reports (run_agent keywords st).2 !! k = reports st !! k.
Proof.
  intros Hj. rewrite run_agent_eq. simpl.
  set (st0 := with_shown _ st).
  pose proof (run_loop_frame keywords ∅ st0) as (Hr & _).
  destruct (run_loop keywords ∅ st0) as [[new | e] st1] eqn:Hl; simpl in *.
  - rewrite Hr.
    pose proof (run_loop_untouched k keywords ∅ st0 new st1 _ eq_refl Hj Hl) as Hk.
    rewrite lookup_empty in Hk. rewrite lookup_union_r by exact Hk. reflexivity.
  - rewrite Hr. reflexivity.
Qed.

(** C3. When [previous_articles] is empty or absent (any value that
    [if previous_articles] takes for false), a call of the report generator
    sends the model no comparison prompt: it sends nothing, or the summary
    prompt alone; and when the digest of the articles can be built it
    returns, with the fixed no-previous-data sentence for [trendChange]. *)
Theorem no_previous_no_trend_call keyword articles previous_articles st :
  cache_inv (cache st) ->
  truthy previous_articles = false ->
  let r := (generate_analysis keyword articles previous_articles st).1 in
  let st' := (generate_analysis keyword articles previous_articles st).2 in
  (chat_log st' = chat_log st
   \/ exists d, article_texts articles = Ok d
                /\ chat_log st' = chat_log st ++ [summary_prompt keyword d])
  /\ match article_texts articles with
     | Ok _ => exists summary, r = Ok (summary, PStr NO_PREVIOUS_DATA)
     | Raise e => r = Raise e
     end.
Proof.
  intros Hc Hp.
  destruct (cache_lookup keyword articles previous_articles (cache st)) as [e |] eqn:Hl.
  - rewrite (generate_analysis_hit _ _ _ _ _ Hl). simpl. split; [auto |].
    destruct (cache_inv_lookup _ _ _ _ _ Hc Hl) as (st0 & st1 & Hb).
    apply body_returns in Hb as ([d ->] & Hv & _).
    destruct (c_value e) as [s t]. simpl in Hv. rewrite (Hv Hp). eauto.
  - rewrite (generate_analysis_miss _ _ _ _ Hl).
    destruct (article_texts articles) as [d | x] eqn:Hd.
    + destruct (body_no_previous keyword _ _ st d Hd Hp) as (st1 & -> & _ & Hch).
      simpl. split; [right | eauto]. exists d. rewrite <- Hd. auto.
    + assert (Hb : generate_analysis_body keyword articles previous_articles st
                   = (Raise x, st)).
      { unfold generate_analysis_body, bind, lift. rewrite Hd. reflexivity. }
      rewrite Hb. simpl. auto.
Qed.

(** C4. A model call that fails does not raise past the report generator
    and costs only its own output.  On a call that is not answered from
    the cache and whose digests can be built, the function returns;
    [summary] is the reply to the summary prompt, or the fixed sentence
    [SUMMARY_FAILED] when that call raised; [trendChange] is the reply to
    the comparison prompt, or the fixed sentence [NO_PREVIOUS_DATA] when
    that call raised; neither depends on how the other call ended, and the
    two sentences differ. *)
Theorem model_failure_is_contained keyword articles previous_articles st d :
  cache_lookup keyword articles previous_articles (cache st) = None ->
  article_texts articles = Ok d ->
  let n := length (chat_log st) in
  (truthy previous_articles = false ->
   exists st',
     generate_analysis keyword articles previous_articles st
     = (Ok (reply_or SUMMARY_FAILED (chat_create n (summary_prompt keyword d)),
            PStr NO_PREVIOUS_DATA), st'))
  /\ (forall pd,
        truthy previous_articles = true ->
        previous_article_texts previous_articles = Ok pd ->
        exists st',
          generate_analysis keyword articles previous_articles st
          = (Ok (reply_or SUMMARY_FAILED
                   (chat_create (S n) (summary_prompt keyword d)),
                 reply_or NO_PREVIOUS_DATA
                   (chat_create n (comparison_prompt keyword pd d))), st'))
  /\ SUMMARY_FAILED <> NO_PREVIOUS_DATA.
Proof.
  intros Hl Hd n. rewrite (generate_analysis_miss _ _ _ _ Hl).
  split; [| split; [| discriminate]].
  - intros Hp.
    destruct (body_no_previous keyword _ _ st d Hd Hp) as (st1 & -> & _). eauto.
  - intros pd Hp Hpd.
    destruct (body_with_previous keyword _ _ st d pd Hd Hp Hpd) as (st1 & -> & _).
    eauto.
Qed.

(** C5. When the search request fails in transport, or is answered with a
    4xx or 5xx status, the article source client shows the user a message
    and returns the empty list, and the orchestrator, after its own
    warning, goes on with the remaining keywords, the batch and the store
    being as they were. *)
Theorem search_failure_is_skipped keyword keywords new_reports st e :
  (http_get (length (http_log st)) keyword 10 = Raise e
   \/ exists r, http_get (length (http_log st)) keyword 10 = Ok r
                /\ (400 <= status_code r < 600)%Z
                /\ e = External (status_error r)) ->
  exists st1,
    guardian_search keyword 10 st = (Ok (PList []), st1)
    /\ shown st1 = shown st ++ [(Error, search_error_message keyword e)]
    /\ reports st1 = reports st
    /\ run_loop (keyword :: keywords) new_reports st
       = run_loop keywords new_reports
           (with_shown (shown st1 ++ [(Warning, no_articles_message keyword)]) st1).
Proof.
  intros H.
  assert (Ho : search_outcome (length (http_log st)) keyword 10 = Raise e).
  { unfold search_outcome. destruct H as [-> | (r & -> & Hs & ->)]; [reflexivity |].
    unfold raise_for_status.
    destruct (Z.leb_spec 400 (status_code r)); [| lia].
    destruct (Z.ltb_spec (status_code r) 600); [| lia]. reflexivity. }
  pose proof (guardian_search_eq keyword 10 st) as Hg. rewrite Ho in Hg. simpl in Hg.
  eexists. split; [exact Hg |]. split; [reflexivity |]. split; [reflexivity |].
  rewrite run_loop_cons, run_keyword_eq. cbv zeta. unfold search_value.
  rewrite Ho, Hg. reflexivity.
Qed.

(** C6. The digest of a list of article records is built without failure
    and is the newline-join of one entry per record, in order: the title,
    the first ten characters of the publication date and the teaser, an
    attribute the record lacks being the empty string.  When no attribute
    holds a newline, the lines of the digest are these entries, one per
    record. *)
Theorem digest_one_line_per_article (l : list pyval) :
  forallb article_record l = true ->
  exists d,
    article_texts (PList l) = Ok d
    /\ d = join nl (map digest_line l)
    /\ (forallb single_line_record l = true ->
        lines_of d = map digest_line l /\ length (lines_of d) = length l).
Proof.
  intros H. exists (join nl (map digest_line l)).
  split; [apply (article_records_texts (PList l)); exact H |].
  split; [reflexivity |]. intros Hs.
  assert (Hl : lines_of (join nl (map digest_line l)) = map digest_line l).
  { apply lines_of_join.
    - rewrite forallb_forall in Hs. apply forallb_forall. intros x Hx.
      apply in_map_iff in Hx as (a & <- & Ha). apply digest_line_single. auto.
    - apply List.Forall_forall. intros x Hx.
      apply in_map_iff in Hx as (a & <- & _). discriminate. }
  rewrite Hl, length_map. auto.
Qed.

(** C7. A call of the report generator that returned is answered from the
    cache ever after: whatever calls and runs come in between, a call on
    the same keyword, articles and previous articles returns the same
    pair and sends the model nothing. *)
Theorem repeated_call_is_cached keyword articles previous_articles st v st1 st2 :
  generate_analysis keyword articles previous_articles st = (Ok v, st1) ->
  later st1 st2 ->
  exists st3,
    generate_analysis keyword articles previous_articles st2 = (Ok v, st3)
    /\ chat_log st3 = chat_log st2.
Proof.
  intros Hg Hlater.
  destruct (generate_analysis_stores _ _ _ _ _ _ Hg) as (e & He & <-).
  apply (later_keeps _ _ _ _ _ _ Hlater) in He.
  rewrite (generate_analysis_hit _ _ _ _ _ He). eauto.
Qed.

(** C8 (as amended). The article source client never raises: it returns a
    value whatever the request does.  That value is the empty list when
    [requests.get] raises, when the status is 4xx or 5xx, when the body is
    not JSON, when the body or its [response] is not an object, and when
    the [response] key or the [results] key is missing; otherwise it is
    the value found under [response.results], as it is. *)
Theorem guardian_search_never_raises keyword page_size st :
  exists v st',
    guardian_search keyword page_size st = (Ok v, st')
    /\ match http_get (length (http_log st)) keyword page_size with
       | Raise _ => v = PList []
       | Ok r =>
           if (400 <=? status_code r)%Z && (status_code r <? 600)%Z
           then v = PList []
           else
             match json_body r with
             | Raise _ => v = PList []
             | Ok (PDict d) =>
                 match dict_get d "response" with
                 | None => v = PList []
                 | Some (PDict d') =>
                     match dict_get d' "results" with
                     | None => v = PList []
                     | Some results => v = results
                     end
                 | Some _ => v = PList []
                 end
             | Ok _ => v = PList []
             end
       end.
Proof.
  destruct (guardian_search_value keyword page_size st) as (st' & Hg & _).
  exists (search_value (length (http_log st)) keyword page_size), st'.
  split; [exact Hg |]. unfold search_value, search_outcome, raise_for_status.
  destruct (http_get _ _ _) as [r | e]; [| reflexivity].
  destruct ((400 <=? status_code r)%Z && (status_code r <? 600)%Z); [reflexivity |].
  destruct (json_body r) as [[| | | | | | d] | e]; try reflexivity. simpl.
  destruct (dict_get d "response") as [[| | | | | | d'] |]; try reflexivity. simpl.
  destruct (dict_get d' "results"); reflexivity.
Qed.

(** C9. In every state a session can reach from the empty store, every
    record of the store has a [current] that is a non-empty list of
    dicts and a [previous] that is a list; a record carries the five
    fields of [report]; and a record a run creates for a keyword that had
    none has the empty list for [previous]. *)
Theorem store_records_well_formed st :
  reachable st ->
  (forall k r, reports st !! k = Some r ->
     (exists a l, current r = PList (a :: l)
                  /\ Forall (fun x => exists d, x = PDict d) (a :: l))
     /\ (exists l', previous r = PList l'))
  /\ (forall keywords k r,
        reports st !! k = None ->
        reports (run_agent keywords st).2 !! k = Some r ->
        previous r = PList []).
Proof.
  intros Hreach. destruct (reachable_inv st Hreach) as [Hm Hc]. split.
  - intros k r Hr. apply Hm in Hr. apply andb_true_iff in Hr as [Hcur Hprev]. split.
    + destruct (current r) as [| | | | | [| a l] |]; try discriminate.
      exists a, l. split; [reflexivity |].
      apply List.Forall_forall. intros x Hx.
      unfold article_list in Hcur. rewrite forallb_forall in Hcur.
      specialize (Hcur x Hx). destruct x; try discriminate. eauto.
    + destruct (previous r); try discriminate. eauto.
  - intros keywords. apply (run_agent_inv keywords st Hm Hc).
Qed.

(** C10. A run writes the store once, after the loop, by merging the batch
    of records the loop built.  The loop itself leaves the store as it
    was, from any state and with any batch.  When the loop, started after
    the opening message with the empty batch, returns a batch, the run
    returns and its store is that very batch merged over the store of
    before the run, each entry of the batch replacing or extending, and
    the batch has entries for keywords of the run only; when the loop
    raises, the run raises the same exception and the store is the one of
    before the run.  So no entry is ever deleted, and the entry of a
    keyword that is not in the run is unchanged. *)
Theorem run_merges_batch_once keywords st :
  let st0 :=
    (show Info "Searching for new data and generating analysis reports. Please wait..."
       st).2 in
  let st' := (run_agent keywords st).2 in
  (forall new_reports st1,
     reports (run_loop keywords new_reports st1).2 = reports st1)
  /\ (forall new_reports st1,
        run_loop keywords ∅ st0 = (Ok new_reports, st1) ->
        (run_agent keywords st).1 = Ok tt
        /\ reports st' = new_reports ∪ reports st
        /\ (forall k r, new_reports !! k = Some r -> reports st' !! k = Some r)
        /\ (forall k, new_reports !! k = None -> reports st' !! k = reports st !! k)
        /\ (forall k, is_Some (new_reports !! k) -> k ∈ keywords))
  /\ (forall e st1,
        run_loop keywords ∅ st0 = (Raise e, st1) ->
        (run_agent keywords st).1 = Raise e /\ reports st' = reports st)
  /\ (forall k, is_Some (reports st !! k) -> is_Some (reports st' !! k))
  /\ (forall k, k ∉ keywords -> reports st' !! k = reports st !! k).
Proof.
  intros st0 st'.
  assert (Hloop : forall new_reports st1,
            reports (run_loop keywords new_reports st1).2 = reports st1)
    by (intros acc st1; apply run_loop_frame).
  assert (Hok : forall new_reports st1,
            run_loop keywords ∅ st0 = (Ok new_reports, st1) ->
            (run_agent keywords st).1 = Ok tt
            /\ reports st' = new_reports ∪ reports st
            /\ (forall k, is_Some (new_reports !! k) -> k ∈ keywords)).
  { intros new st1 Hl. unfold st'. rewrite run_agent_eq. cbv zeta.
    change (with_shown
              (shown st ++ [(Info, "Searching for new data and generating analysis reports. Please wait..."%string)])
              st) with st0.
    pose proof (Hloop ∅ st0) as Hr. rewrite Hl in *. simpl in *.
    split; [reflexivity |]. split; [rewrite Hr; reflexivity |].
    intros k Hk. destruct (run_loop_dom _ _ _ _ _ k Hl Hk) as [H | H]; [| exact H].
    rewrite lookup_empty in H. destruct H; discriminate. }
  assert (Hraise : forall e st1,
            run_loop keywords ∅ st0 = (Raise e, st1) ->
            (run_agent keywords st).1 = Raise e /\ reports st' = reports st).
  { intros e st1 Hl. unfold st'. rewrite run_agent_eq. cbv zeta.
    change (with_shown
              (shown st ++ [(Info, "Searching for new data and generating analysis reports. Please wait..."%string)])
              st) with st0.
    pose proof (Hloop ∅ st0) as Hr. rewrite Hl in *. simpl in *. auto. }
  split; [exact Hloop |]. split; [| split; [exact Hraise |]].
  - intros new st1 Hl. destruct (Hok new st1 Hl) as (H1 & H2 & H3).
    split; [exact H1 |]. split; [exact H2 |]. split; [| split; [| exact H3]].
    + intros k r Hk. rewrite H2. apply lookup_union_Some_l. exact Hk.
    + intros k Hk. rewrite H2. apply lookup_union_r. exact Hk.
  - destruct (run_loop keywords ∅ st0) as [[new | e] st1] eqn:Hl.
    + destruct (Hok new st1 eq_refl) as (_ & H2 & H3). rewrite H2. split.
      * intros k [r Hr]. destruct (new !! k) as [r' |] eqn:Hn.
        -- exists r'. apply lookup_union_Some_l. exact Hn.
        -- exists r. rewrite lookup_union_r by exact Hn. exact Hr.
      * intros k Hk. apply lookup_union_r.
        destruct (new !! k) eqn:Hn; [| reflexivity].
        exfalso. apply Hk, H3. eauto.
    + destruct (Hraise e st1 eq_refl) as (_ & H2). rewrite H2. auto.
Qed.

(** ** Beyond the claims *)

(** *** The keyword input *)

Lemma lstrip_all_space s : all_space (lstrip s) = all_space s.
Proof.
  induction s as [| c s IH]; simpl; [reflexivity |].
  destruct (is_space c) eqn:Hc; simpl; [exact IH | rewrite Hc; reflexivity].
Qed.

Lemma rstrip_empty s : rstrip s = EmptyString <-> all_space s = true.
Proof.
  induction s as [| c s IH]; simpl; [tauto |].
  destruct (rstrip s) as [| c' r]; destruct (is_space c); simpl; split;
    try discriminate; try reflexivity; intros H.
  - apply IH. reflexivity.
  - apply IH in H. discriminate.
Qed.

Lemma strip_empty s : strip s = EmptyString <-> all_space s = true.
Proof. unfold strip. rewrite rstrip_empty, lstrip_all_space. reflexivity. Qed.

Lemma lstrip_first s : first_is_space (lstrip s) = false.
Proof.
  induction s as [| c s IH]; simpl; [reflexivity |].
  destruct (is_space c) eqn:Hc; [exact IH | simpl; exact Hc].
Qed.

Lemma rstrip_first s : first_is_space s = false -> first_is_space (rstrip s) = false.
Proof.
  destruct s as [| c s]; simpl; [reflexivity |]. intros Hc.
  destruct (rstrip s); [rewrite Hc |]; simpl; exact Hc.
Qed.

Lemma rstrip_last s : last_is_space (rstrip s) = false.
Proof.
  induction s as [| c s IH]; simpl; [reflexivity |].
  destruct (rstrip s) as [| c' r]; [destruct (is_space c) eqn:Hc; simpl; auto |].
  exact IH.
Qed.

Lemma lstrip_no_comma s : no_comma s = true -> no_comma (lstrip s) = true.
Proof.
  induction s as [| c s IH]; simpl; [reflexivity |]. intros H.
  destruct (is_space c); [| exact H]. apply andb_true_iff in H as [_ H]. auto.
Qed.

Lemma rstrip_no_comma s : no_comma s = true -> no_comma (rstrip s) = true.
Proof.
  induction s as [| c s IH]; simpl; [reflexivity |]. intros H.
  apply andb_true_iff in H as [Hc Hs]. specialize (IH Hs).
  destruct (rstrip s); [destruct (is_space c) |]; simpl in *;
    rewrite ?Hc, ?IH; reflexivity.
Qed.

Lemma split_on_no_comma s : Forall (fun k => no_comma k = true) (split_on comma s).
Proof.
  induction s as [| c s IH]; simpl; [repeat constructor |].
  destruct (Ascii.eqb c comma) eqn:Hc; [constructor; [reflexivity | exact IH] |].
  destruct (split_on comma s) as [| x rest]; [repeat constructor; simpl; rewrite Hc; reflexivity |].
  inversion IH; subst. constructor; [simpl; rewrite Hc; simpl; assumption | assumption].
Qed.

Lemma lstrip_clean k : first_is_space k = false -> lstrip k = k.
Proof. destruct k as [| c k]; simpl; [reflexivity |]. intros ->. reflexivity. Qed.

Lemma rstrip_clean k : last_is_space k = false -> rstrip k = k.
Proof.
  induction k as [| c k IH]; [reflexivity |].
  destruct k as [| c' k]; [simpl; intros ->; reflexivity |].
  intros H. change (last_is_space (String c (String c' k)))
              with (last_is_space (String c' k)) in H.
  change (rstrip (String c (String c' k)))
    with (match rstrip (String c' k) with
          | EmptyString => if is_space c then EmptyString else String c EmptyString
          | r => String c r
          end).
  rewrite (IH H). reflexivity.
Qed.

Lemma strip_clean k : clean_keyword k = true -> strip k = k.
Proof.
  unfold clean_keyword. intros H.
  apply andb_true_iff in H as [H Hl]. apply andb_true_iff in H as [_ Hf].
  apply negb_true_iff in Hl, Hf.
  unfold strip. rewrite (lstrip_clean k Hf). apply rstrip_clean, Hl.
Qed.

Lemma split_on_single k : no_comma k = true -> split_on comma k = [k].
Proof.
  induction k as [| c k IH]; simpl; [reflexivity |]. intros H.
  apply andb_true_iff in H as [Hc Hk]. apply negb_true_iff in Hc.
  rewrite Hc, (IH Hk). reflexivity.
Qed.

Lemma split_on_cons c s :
  Ascii.eqb c comma = false ->
  split_on comma (String c s)
  = match split_on comma s with
    | x :: rest => String c x :: rest
    | [] => [String c EmptyString]
    end.
Proof. simpl. intros ->. reflexivity. Qed.

Lemma split_on_app k t :
  no_comma k = true ->
  split_on comma (k +:+ String comma t) = k :: split_on comma t.
Proof.
  induction k as [| c k IH]; simpl.
  - intros _. reflexivity.
  - intros H. apply andb_true_iff in H as [Hc Hk]. apply negb_true_iff in Hc.
    rewrite Hc, (IH Hk). reflexivity.
Qed.

Lemma blank_split s :
  blank s = forallb all_space (split_on comma s).
Proof.
  induction s as [| c s IH]; simpl; [reflexivity |].
  destruct (Ascii.eqb c comma) eqn:Hc.
  - rewrite orb_true_r. simpl. exact IH.
  - rewrite orb_false_r, IH.
    destruct (split_on comma s) as [| x rest]; simpl;
      [rewrite !andb_true_r; reflexivity | rewrite andb_assoc; reflexivity].
Qed.

(** X1. A keyword of the parsed input is never empty, holds no comma and
    has no white space at either end. *)
Theorem parse_keywords_clean keyword_input k :
  In k (parse_keywords keyword_input) -> clean_keyword k = true.
Proof.
  unfold parse_keywords. intros H.
  apply in_map_iff in H as (x & <- & Hx). apply filter_In in Hx as [Hx Hne].
  pose proof (split_on_no_comma keyword_input) as Hall.
  rewrite List.Forall_forall in Hall. specialize (Hall x Hx).
  unfold clean_keyword. rewrite Hne. unfold strip.
  rewrite (rstrip_no_comma _ (lstrip_no_comma _ Hall)),
    (rstrip_first _ (lstrip_first x)), rstrip_last. reflexivity.
Qed.

Lemma parse_keywords_nil_iff keyword_input :
  parse_keywords keyword_input = [] <-> blank keyword_input = true.
Proof.
  unfold parse_keywords. rewrite blank_split.
  induction (split_on comma keyword_input) as [| x l IH]; simpl; [tauto |].
  destruct (strip x) as [| c t] eqn:Hx; simpl.
  - apply strip_empty in Hx. rewrite Hx. exact IH.
  - split; [discriminate |]. intros H. apply andb_true_iff in H as [H _].
    apply strip_empty in H. congruence.
Qed.

Lemma parse_keywords_nil_blank keyword_input :
  blank keyword_input = true -> parse_keywords keyword_input = [].
Proof. apply parse_keywords_nil_iff. Qed.

(** X2. No keyword is parsed exactly when the input holds nothing but
    white space and commas (the empty input included). *)
Theorem parse_keywords_nil keyword_input :
  parse_keywords keyword_input = [] <-> blank keyword_input = true.
Proof. apply parse_keywords_nil_iff. Qed.

(** X3. Keywords that are not empty, hold no comma and have no white space
    at either end come out of the input as they were typed, in order,
    when they are typed with a comma and a space between them. *)
Theorem parse_keywords_join keywords :
  forallb clean_keyword keywords = true ->
  parse_keywords (String.concat ", " keywords) = keywords.
Proof.
  assert (Hsp : forall k, clean_keyword k = true ->
                          strip (String (Ascii.ascii_of_nat 32) k) = k).
  { intros k Hk. unfold strip. simpl. apply (strip_clean k Hk). }
  assert (Hne : forall k, clean_keyword k = true -> nonempty k = true).
  { unfold clean_keyword. intros k Hk. repeat (apply andb_true_iff in Hk as [Hk _]).
    exact Hk. }
  assert (Hnc : forall k, clean_keyword k = true -> no_comma k = true).
  { unfold clean_keyword. intros k Hk. apply andb_true_iff in Hk as [Hk _].
    apply andb_true_iff in Hk as [Hk _]. apply andb_true_iff in Hk as [_ Hk].
    exact Hk. }
  destruct keywords as [| k ks]; [reflexivity |]. simpl forallb. intros H.
  apply andb_true_iff in H as [Hk Hks].
  assert (Hsplit : split_on comma (String.concat ", " (k :: ks))
                   = k :: List.map (String (Ascii.ascii_of_nat 32)) ks).
  { revert k Hk. induction ks as [| k' ks IH]; intros k Hk.
    - simpl. apply split_on_single, Hnc, Hk.
    - simpl in Hks. apply andb_true_iff in Hks as [Hk' Hks].
      change (String.concat ", " (k :: k' :: ks))
        with (k +:+ String comma (String (Ascii.ascii_of_nat 32)
                                    (String.concat ", " (k' :: ks)))).
      rewrite (split_on_app _ _ (Hnc k Hk)). f_equal.
      change (String (Ascii.ascii_of_nat 32) (String.concat ", " (k' :: ks)))
        with (String (Ascii.ascii_of_nat 32) EmptyString
              +:+ String.concat ", " (k' :: ks)).
      specialize (IH Hks k' Hk').
      change (String (Ascii.ascii_of_nat 32) EmptyString
              +:+ String.concat ", " (k' :: ks))
        with (String (Ascii.ascii_of_nat 32) (String.concat ", " (k' :: ks))).
      rewrite split_on_cons by reflexivity. rewrite IH. reflexivity. }
  unfold parse_keywords. rewrite Hsplit. simpl.
  rewrite (strip_clean k Hk), (Hne k Hk). simpl. rewrite (strip_clean k Hk). f_equal.
  clear Hsplit. induction ks as [| k' ks IH]; [reflexivity |].
  simpl in Hks. apply andb_true_iff in Hks as [Hk' Hks].
  simpl. rewrite (Hsp k' Hk'), (Hne k' Hk'). simpl. rewrite (Hsp k' Hk').
  f_equal. exact (IH Hks).
Qed.

(** *** The digests and the article list *)

Lemma article_line_digestible a :
  (exists s, article_line a = Ok s) <-> digestible a = true.
Proof.
  destruct a as [| | | | | | d];
    try (split; [intros [x Hx]; discriminate | discriminate]).
  unfold article_line, digestible. simpl.
  destruct (dict_get d "webPublicationDate") as [[] |];
    destruct (dict_get d "fields") as [[] |]; simpl;
    split; intros H; try discriminate; try reflexivity; eauto;
    destruct H as [x Hx]; discriminate.
Qed.

Lemma article_markdown_digestible a :
  (exists s, article_markdown a = Ok s) <-> digestible a = true.
Proof.
  destruct a as [| | | | | | d];
    try (split; [intros [x Hx]; discriminate | discriminate]).
  unfold article_markdown, digestible. simpl.
  destruct (dict_get d "webPublicationDate") as [[] |];
    destruct (dict_get d "fields") as [[] |]; simpl;
    split; intros H; try discriminate; try reflexivity; eauto;
    destruct H as [x Hx]; discriminate.
Qed.

Lemma comprehension_returns {A B} (f : A -> result B) (l : list A) :
  (exists bs, comprehension f l = Ok bs) <-> Forall (fun a => exists b, f a = Ok b) l.
Proof.
  induction l as [| a l IH]; simpl.
  - split; [constructor | eauto].
  - split.
    + intros [bs H]. destruct (f a) as [b |] eqn:Ha; [| discriminate].
      destruct (comprehension f l) as [bs' |]; [| discriminate].
      constructor; [eauto | apply IH; eauto].
    + intros H. inversion H as [| ? ? [b Hb] Hl]; subst.
      apply IH in Hl as [bs Hbs]. rewrite Hb, Hbs. eauto.
Qed.

Lemma article_texts_digestible (l : list pyval) :
  (exists d, article_texts (PList l) = Ok d) <-> forallb digestible l = true.
Proof.
  unfold article_texts, py_iter. cbv beta iota.
  rewrite forallb_forall, <- List.Forall_forall.
  split.
  - intros [d H].
    destruct (comprehension article_line l) as [ls |] eqn:Hc; [| discriminate].
    assert (Hr : exists bs, comprehension article_line l = Ok bs) by eauto.
    apply comprehension_returns in Hr.
    eapply List.Forall_impl; [| exact Hr]. intros a Ha.
    apply article_line_digestible. exact Ha.
  - intros H.
    assert (Hr : exists bs, comprehension article_line l = Ok bs).
    { apply comprehension_returns. eapply List.Forall_impl; [| exact H].
      intros a Ha. apply article_line_digestible. exact Ha. }
    destruct Hr as [bs ->]. eauto.
Qed.

(** X4. The digest of a list can be built exactly when every element is a
    dict whose date, if any, is a string or a list and whose [fields], if
    any, is a dict; a [null] date or a [fields] that is no object makes
    it raise. *)
Theorem article_texts_returns_iff (l : list pyval) :
  (exists d, article_texts (PList l) = Ok d) <-> forallb digestible l = true.
Proof. apply article_texts_digestible. Qed.

(** X5. The digest of the previous articles, for a list of article
    records, has one entry per record, joined by newlines: the title after
    a dash, or the dash alone for a record with no title. *)
Theorem previous_titles_one_per_article (l : list pyval) :
  forallb article_record l = true ->
  previous_article_texts (PList l) = Ok (join nl (List.map title_entry l)).
Proof.
  intros H. unfold previous_article_texts, py_iter. cbv beta iota.
  rewrite (comprehension_ok title_line title_entry); [reflexivity |].
  apply List.Forall_forall. intros a Ha. rewrite forallb_forall in H.
  specialize (H a Ha). destruct a as [| | | | | | d]; try discriminate.
  simpl in H. apply andb_true_iff in H as [H _]. apply andb_true_iff in H as [Ht _].
  unfold title_line, title_entry, title_of, attribute, absent_or_str in *. simpl.
  destruct (dict_get d "webTitle") as [[] |]; try discriminate; reflexivity.
Qed.

(** X6. The article list shows an article record as a markdown item with
    its title, link, the first ten characters of its date and its teaser;
    a record with no title is shown as "No Title", with no link as "#",
    with no teaser as "No summary available". *)
Theorem article_markdown_record a :
  listed_record a = true -> article_markdown a = Ok (listed_article a).
Proof.
  unfold listed_record. intros H. apply andb_true_iff in H as [Ha Hu].
  destruct a as [| | | | | | d]; try discriminate. simpl in Ha.
  apply andb_true_iff in Ha as [Ha Hf]. apply andb_true_iff in Ha as [Ht Hd].
  unfold article_markdown, listed_article, attribute_or, attribute, absent_or_str in *.
  simpl.
  destruct (dict_get d "webPublicationDate") as [[] |]; try discriminate;
    destruct (dict_get d "webTitle") as [[] |]; try discriminate;
    destruct (dict_get d "webUrl") as [[] |]; try discriminate;
    destruct (dict_get d "fields") as [[| | | | | | f] |]; try discriminate; simpl;
    try reflexivity;
    destruct (dict_get f "trailText") as [[] |]; try discriminate; reflexivity.
Qed.

Lemma show_articles_digestible l :
  forallb digestible l = true ->
  exists ms, show_articles l = (ms, Ok tt) /\ length ms = length l.
Proof.
  induction l as [| a l IH]; simpl; [eauto |].
  intros H. apply andb_true_iff in H as [Ha Hl].
  apply article_markdown_digestible in Ha as [m ->].
  destruct (IH Hl) as (ms & -> & Hlen). exists (m :: ms). simpl. auto.
Qed.

(** *** More on [generate_analysis] *)

(** What a run of the body that gets to the model sends and shows. *)
Lemma body_effects keyword articles previous_articles st d :
  article_texts articles = Ok d ->
  let n := length (chat_log st) in
  let st' := (generate_analysis_body keyword articles previous_articles st).2 in
  (truthy previous_articles = false ->
   chat_log st' = chat_log st ++ [summary_prompt keyword d]
   /\ shown st'
      = shown st
        ++ error_shown SUMMARY_ERROR (chat_create n (summary_prompt keyword d)))
  /\ (forall pd,
        truthy previous_articles = true ->
        previous_article_texts previous_articles = Ok pd ->
        chat_log st'
        = chat_log st ++ [comparison_prompt keyword pd d; summary_prompt keyword d]
        /\ shown st'
           = shown st
             ++ error_shown TREND_ERROR
                  (chat_create n (comparison_prompt keyword pd d))
             ++ error_shown SUMMARY_ERROR
                  (chat_create (S n) (summary_prompt keyword d))).
Proof.
  intros Hd n. split.
  - intros Hp.
    unfold generate_analysis_body, bind, lift, try_except, chat_completion, show, ret.
    rewrite Hd, Hp. simpl. fold n.
    destruct (chat_create n _); simpl; rewrite ?app_nil_r; auto.
  - intros pd Hp Hpd.
    unfold generate_analysis_body, bind, lift, try_except, chat_completion, show, ret.
    rewrite Hd, Hp, Hpd. simpl. fold n.
    destruct (chat_create n _); simpl;
      rewrite length_app, Nat.add_1_r; fold n;
      destruct (chat_create (S n) _); simpl;
      rewrite <- ?app_assoc, ?app_nil_r; auto.
Qed.

Lemma body_returns_previous keyword articles previous_articles st v st' :
  generate_analysis_body keyword articles previous_articles st = (Ok v, st') ->
  truthy previous_articles = true ->
  exists pd, previous_article_texts previous_articles = Ok pd.
Proof.
  intros Hb Hp.
  destruct (previous_article_texts previous_articles) as [pd | e] eqn:Hpd; [eauto |].
  destruct (body_returns _ _ _ _ _ _ Hb) as ([d Hd] & _).
  unfold generate_analysis_body, bind, lift in Hb. rewrite Hd, Hp, Hpd in Hb.
  discriminate.
Qed.

Lemma generate_analysis_miss_effects keyword articles previous_articles st :
  cache_lookup keyword articles previous_articles (cache st) = None ->
  let st' := (generate_analysis keyword articles previous_articles st).2 in
  let st1 := (generate_analysis_body keyword articles previous_articles st).2 in
  chat_log st' = chat_log st1 /\ shown st' = shown st1.
Proof.
  intros Hl. rewrite (generate_analysis_miss _ _ _ _ Hl).
  destruct (generate_analysis_body keyword articles previous_articles st)
    as [[v | e] st1]; simpl; auto.
Qed.

(** X7. A call that is not answered from the cache sends the model the
    comparison prompt and then the summary prompt when there are previous
    articles, the summary prompt alone when there are none, whatever the
    model answers: a failure of the first call does not keep the second
    from being made. *)
Theorem both_prompts_are_sent keyword articles previous_articles st d :
  cache_lookup keyword articles previous_articles (cache st) = None ->
  article_texts articles = Ok d ->
  chat_log (generate_analysis keyword articles previous_articles st).2
  = chat_log st
    ++ (if truthy previous_articles then
          match previous_article_texts previous_articles with
          | Ok pd => [comparison_prompt keyword pd d; summary_prompt keyword d]
          | Raise _ => []
          end
        else [summary_prompt keyword d]).
Proof.
  intros Hl Hd.
  destruct (generate_analysis_miss_effects _ _ _ _ Hl) as [-> _].
  destruct (body_effects keyword articles previous_articles st d Hd) as [Hf Ht].
  destruct (truthy previous_articles) eqn:Hp; [| apply Hf; reflexivity].
  destruct (previous_article_texts previous_articles) as [pd | e] eqn:Hpd.
  - apply (Ht pd); reflexivity.
  - unfold generate_analysis_body, bind, lift. rewrite Hd, Hp, Hpd. simpl.
    rewrite app_nil_r. reflexivity.
Qed.

(** X8. A model call that raises is shown to the user: a call that is not
    answered from the cache adds to the page one error message, with the
    text of the exception, for each of its model calls that raised, the
    trend error before the summary error, and nothing else. *)
Theorem model_errors_are_shown keyword articles previous_articles st d :
  cache_lookup keyword articles previous_articles (cache st) = None ->
  article_texts articles = Ok d ->
  let n := length (chat_log st) in
  shown (generate_analysis keyword articles previous_articles st).2
  = shown st
    ++ (if truthy previous_articles then
          match previous_article_texts previous_articles with
          | Ok pd =>
              error_shown TREND_ERROR
                (chat_create n (comparison_prompt keyword pd d))
              ++ error_shown SUMMARY_ERROR
                   (chat_create (S n) (summary_prompt keyword d))
          | Raise _ => []
          end
        else error_shown SUMMARY_ERROR (chat_create n (summary_prompt keyword d))).
Proof.
  intros Hl Hd n.
  destruct (generate_analysis_miss_effects _ _ _ _ Hl) as [_ ->].
  destruct (body_effects keyword articles previous_articles st d Hd) as [Hf Ht].
  destruct (truthy previous_articles) eqn:Hp; [| apply Hf; reflexivity].
  destruct (previous_article_texts previous_articles) as [pd | e] eqn:Hpd.
  - apply (Ht pd); reflexivity.
  - unfold generate_analysis_body, bind, lift. rewrite Hd, Hp, Hpd. simpl.
    rewrite app_nil_r. reflexivity.
Qed.

(** X9. A call of the report generator that raises has done nothing: no
    model call, no message, no cache entry; the state is the one before
    the call. *)
Theorem failed_call_has_no_effect keyword articles previous_articles st e st' :
  generate_analysis keyword articles previous_articles st = (Raise e, st') ->
  st' = st.
Proof.
  destruct (cache_lookup keyword articles previous_articles (cache st)) as [x |] eqn:Hl.
  - rewrite (generate_analysis_hit _ _ _ _ _ Hl). discriminate.
  - rewrite (generate_analysis_miss _ _ _ _ Hl).
    destruct (generate_analysis_body keyword articles previous_articles st)
      as [[v | e'] st1] eqn:Hb; [discriminate |].
    intros [= _ <-]. apply body_raises in Hb as [-> _]. reflexivity.
Qed.

(** X10. With a cache that holds only what the function stored, a call of
    the report generator returns exactly when the digest of the articles
    can be built and, when there are previous articles, their digest
    too; it raises otherwise, whatever the model does. *)
Theorem generate_analysis_returns_iff keyword articles previous_articles st :
  cache_inv (cache st) ->
  (exists v st', generate_analysis keyword articles previous_articles st = (Ok v, st'))
  <-> (exists d, article_texts articles = Ok d)
      /\ (truthy previous_articles = true ->
          exists pd, previous_article_texts previous_articles = Ok pd).
Proof.
  intros Hc. split.
  - intros (v & st' & Hg).
    destruct (cache_lookup keyword articles previous_articles (cache st)) as [x |] eqn:Hl.
    + destruct (cache_inv_lookup _ _ _ _ _ Hc Hl) as (st0 & st1 & Hb). split.
      * apply (body_returns _ _ _ _ _ _ Hb).
      * apply (body_returns_previous _ _ _ _ _ _ Hb).
    + rewrite (generate_analysis_miss _ _ _ _ Hl) in Hg.
      destruct (generate_analysis_body keyword articles previous_articles st)
        as [[v' | e] st1] eqn:Hb; [| discriminate]. split.
      * apply (body_returns _ _ _ _ _ _ Hb).
      * apply (body_returns_previous _ _ _ _ _ _ Hb).
  - intros [[d Hd] Hpd]. exact (generate_analysis_total _ _ _ st d Hd Hpd).
Qed.

(** X11. A failure of the summary call is kept: once a call that was not
    answered from the cache has returned the failure sentence, every
    later call on the same arguments returns that sentence again without
    asking the model, even if the model would now reply. *)
Theorem summary_failure_is_kept keyword articles previous_articles st d e st2 :
  cache_lookup keyword articles previous_articles (cache st) = None ->
  article_texts articles = Ok d ->
  truthy previous_articles = false ->
  chat_create (length (chat_log st)) (summary_prompt keyword d) = Raise e ->
  later (generate_analysis keyword articles previous_articles st).2 st2 ->
  exists st3,
    generate_analysis keyword articles previous_articles st2
    = (Ok (PStr SUMMARY_FAILED, PStr NO_PREVIOUS_DATA), st3)
    /\ chat_log st3 = chat_log st2.
Proof.
  intros Hl Hd Hp He Hlater.
  assert (Hg : exists st1,
             generate_analysis keyword articles previous_articles st
             = (Ok (PStr SUMMARY_FAILED, PStr NO_PREVIOUS_DATA), st1)).
  { rewrite (generate_analysis_miss _ _ _ _ Hl).
    destruct (body_no_previous keyword _ _ st d Hd Hp) as (st1 & -> & _).
    rewrite He. simpl. eauto. }
  destruct Hg as [st1 Hg]. rewrite Hg in Hlater. simpl in Hlater.
  destruct (generate_analysis_stores _ _ _ _ _ _ Hg) as (x & Hx & Hv).
  apply (later_keeps _ _ _ _ _ _ Hlater) in Hx.
  rewrite (generate_analysis_hit _ _ _ _ _ Hx), Hv. eauto.
Qed.

(** *** More on [guardian_search] and [run_agent] *)

(** X12. A call of the article source client sends one request, with the
    keyword and the page size it was given, and never a second one; it
    leaves the store, the cache, the model and the clock alone; and it
    shows one error message when the request failed, none when it did
    not. *)
Theorem guardian_search_one_request keyword page_size st :
  let st' := (guardian_search keyword page_size st).2 in
  http_log st' = http_log st ++ [(keyword, page_size)]
  /\ reports st' = reports st /\ cache st' = cache st
  /\ chat_log st' = chat_log st /\ clock st' = clock st
  /\ shown st'
     = shown st
       ++ match search_outcome (length (http_log st)) keyword page_size with
          | Ok _ => []
          | Raise e => [(Error, search_error_message keyword e)]
          end.
Proof.
  rewrite guardian_search_eq.
  destruct (search_outcome _ _ _); simpl; rewrite ?app_nil_r; repeat split; reflexivity.
Qed.

Lemma run_loop_raises_store keywords new_reports st :
  reports (run_loop keywords new_reports st).2 = reports st.
Proof. apply run_loop_frame. Qed.

(** X13. A run that raises writes nothing: the store is the one before the
    run, the records built for the keywords that came before the failure
    being lost. *)
Theorem failed_run_writes_nothing keywords st e st' :
  run_agent keywords st = (Raise e, st') -> reports st' = reports st.
Proof.
  rewrite run_agent_eq. simpl. set (st0 := with_shown _ st).
  pose proof (run_loop_raises_store keywords ∅ st0) as Hr.
  destruct (run_loop keywords ∅ st0) as [[new | x] st1]; [discriminate |].
  intros [= _ <-]. exact Hr.
Qed.

Lemma run_loop_requests keywords : forall new_reports st,
  exists m,
    http_log (run_loop keywords new_reports st).2
    = http_log st ++ List.map (fun k => (k, 10%Z)) (take m keywords)
    /\ (forall new_reports', (run_loop keywords new_reports st).1 = Ok new_reports' ->
        m = length keywords).
Proof.
  induction keywords as [| k ks IH]; intros acc st.
  - exists 0. simpl. rewrite app_nil_r. auto.
  - rewrite run_loop_cons.
    pose proof (run_keyword_frame k acc st) as (_ & Hh & _).
    destruct (run_keyword k acc st) as [[acc1 | e] st1]; simpl in Hh.
    + destruct (IH acc1 st1) as (m & Hm & Hok). exists (S m). split.
      * rewrite Hm, Hh, <- app_assoc. reflexivity.
      * intros new Hnew. simpl. f_equal. eauto.
    + exists 1. simpl. split; [exact Hh | discriminate].
Qed.

(** X14. A run searches the keywords in order, once each, ten articles a
    page: a run that returns has sent one request per keyword of the
    list, and a run that raises has sent those of a prefix of the list. *)
Theorem one_search_per_keyword keywords st :
  exists m,
    http_log (run_agent keywords st).2
    = http_log st ++ List.map (fun k => (k, 10%Z)) (take m keywords)
    /\ ((run_agent keywords st).1 = Ok tt -> m = length keywords).
Proof.
  rewrite run_agent_eq. simpl. set (st0 := with_shown _ st).
  destruct (run_loop_requests keywords ∅ st0) as (m & Hm & Hok).
  exists m. destruct (run_loop keywords ∅ st0) as [[new | e] st1]; simpl in *.
  - split; [exact Hm | intros _; eauto].
  - split; [exact Hm | discriminate].
Qed.

Lemma generate_analysis_calls keyword articles previous_articles st :
  length (chat_log (generate_analysis keyword articles previous_articles st).2)
  <= length (chat_log st) + 2.
Proof.
  destruct (cache_lookup keyword articles previous_articles (cache st)) as [x |] eqn:Hl.
  - rewrite (generate_analysis_hit _ _ _ _ _ Hl). simpl. lia.
  - destruct (generate_analysis_miss_effects _ _ _ _ Hl) as [-> _].
    destruct (article_texts articles) as [d | e] eqn:Hd.
    + destruct (body_effects keyword articles previous_articles st d Hd) as [Hf Ht].
      destruct (truthy previous_articles) eqn:Hp.
      * destruct (previous_article_texts previous_articles) as [pd | e] eqn:Hpd.
        -- destruct (Ht pd eq_refl eq_refl) as [-> _]. rewrite length_app. simpl. lia.
        -- unfold generate_analysis_body, bind, lift. rewrite Hd, Hp, Hpd. simpl. lia.
      * destruct (Hf eq_refl) as [-> _]. rewrite length_app. simpl. lia.
    + unfold generate_analysis_body, bind, lift. rewrite Hd. simpl. lia.
Qed.

Lemma run_keyword_calls keyword new_reports st :
  length (chat_log (run_keyword keyword new_reports st).2)
  <= length (chat_log st) + 2.
Proof.
  rewrite run_keyword_eq.
  destruct (guardian_search_value keyword 10 st) as (st1 & -> & _ & _ & Hc & _).
  simpl. destruct (truthy _); simpl; [| rewrite Hc; lia].
  pose proof (generate_analysis_calls keyword
    (search_value (length (http_log st)) keyword 10)
    (prior_current (reports st1) keyword) st1) as H.
  destruct (generate_analysis _ _ _ st1) as [[[cs tc] | e] st2]; simpl in *;
    rewrite Hc in H; exact H.
Qed.

Lemma run_loop_calls keywords : forall new_reports st,
  length (chat_log (run_loop keywords new_reports st).2)
  <= length (chat_log st) + 2 * length keywords.
Proof.
  induction keywords as [| k ks IH]; intros acc st; [simpl; lia |].
  rewrite run_loop_cons.
  pose proof (run_keyword_calls k acc st) as Hk.
  destruct (run_keyword k acc st) as [[acc1 | e] st1]; simpl in *.
  - specialize (IH acc1 st1). lia.
  - lia.
Qed.

(** X15. A run asks the model at most twice per keyword of its list. *)
Theorem at_most_two_model_calls_per_keyword keywords st :
  length (chat_log (run_agent keywords st).2)
  <= length (chat_log st) + 2 * length keywords.
Proof.
  rewrite run_agent_eq. simpl. set (st0 := with_shown _ st).
  pose proof (run_loop_calls keywords ∅ st0) as H.
  destruct (run_loop keywords ∅ st0) as [[new | e] st1]; simpl in *; exact H.
Qed.

Lemma run_keyword_returns_iff keyword new_reports st :
  store_inv (reports st) -> cache_inv (cache st) ->
  let articles := search_value (length (http_log st)) keyword 10 in
  (exists new_reports' st', run_keyword keyword new_reports st = (Ok new_reports', st'))
  <-> (truthy articles = true -> exists d, article_texts articles = Ok d).
Proof.
  intros Hm Hc articles. rewrite run_keyword_eq. fold articles. cbv zeta.
  destruct (guardian_search_value keyword 10 st) as (st1 & -> & Hr & Hca & _).
  simpl. destruct (truthy articles) eqn:Ht.
  - split.
    + intros (acc' & st' & H) _.
      destruct (generate_analysis keyword articles (prior_current (reports st1) keyword) st1)
        as [[[cs tc] | e] st2] eqn:Hg; [| discriminate].
      rewrite <- Hca in Hc. apply (generate_analysis_returns _ _ _ _ _ _ Hc Hg).
    + intros H. destruct (H eq_refl) as [d Hd].
      destruct (generate_analysis_total keyword articles
                  (prior_current (reports st1) keyword) st1 d Hd)
        as ([cs tc] & st2 & ->); [| eauto].
      rewrite Hr. apply store_inv_titles. exact Hm.
  - split; [discriminate | eauto].
Qed.

Lemma run_loop_returns_iff keywords : forall new_reports st n,
  length (http_log st) = n ->
  store_inv (reports st) -> cache_inv (cache st) ->
  (exists new_reports' st', run_loop keywords new_reports st = (Ok new_reports', st'))
  <-> (forall j k, keywords !! j = Some k ->
         truthy (search_value (n + j) k 10) = true ->
         exists d, article_texts (search_value (n + j) k 10) = Ok d).
Proof.
  induction keywords as [| k0 ks IH]; intros acc st n Hn Hm Hc.
  - simpl. split; [intros _ j k H; discriminate | eauto].
  - rewrite run_loop_cons.
    pose proof (run_keyword_returns_iff k0 acc st Hm Hc) as Hk. simpl in Hk.
    pose proof (run_keyword_frame k0 acc st) as (Hr & Hh & Hc1).
    destruct (run_keyword k0 acc st) as [[acc1 | e] st1] eqn:Hrun; simpl in Hr, Hh, Hc1.
    + assert (Hn1 : length (http_log st1) = S n)
        by (rewrite Hh, length_app, Hn; simpl; lia).
      rewrite (IH acc1 st1 (S n) Hn1 ltac:(rewrite Hr; exact Hm) (Hc1 Hc)). split.
      * intros H [| j] k Hj.
        -- injection Hj as <-. rewrite Nat.add_0_r, <- Hn. apply Hk. eauto.
        -- rewrite Nat.add_succ_r. apply (H j k Hj).
      * intros H j k Hj. specialize (H (S j) k Hj). rewrite Nat.add_succ_r in H.
        exact H.
    + split; [intros (? & ? & ?); discriminate |]. intros H. exfalso.
      apply proj2 in Hk. destruct Hk as (? & ? & ?); [| discriminate].
      rewrite Hn, <- (Nat.add_0_r n). apply (H 0 k0). reflexivity.
Qed.

(** X16. In a store the orchestrator made, and with a cache that holds only
    what the report generator stored, a run returns exactly when every
    search of the run that gave something gave articles whose digest can
    be built; it raises otherwise. *)
Theorem run_agent_returns_iff keywords st :
  store_inv (reports st) -> cache_inv (cache st) ->
  (exists st', run_agent keywords st = (Ok tt, st'))
  <-> (forall j k, keywords !! j = Some k ->
         truthy (search_value (length (http_log st) + j) k 10) = true ->
         exists d, article_texts (search_value (length (http_log st) + j) k 10) = Ok d).
Proof.
  intros Hm Hc. rewrite run_agent_eq. simpl. set (st0 := with_shown _ st).
  rewrite <- (run_loop_returns_iff keywords ∅ st0 (length (http_log st)) eq_refl Hm Hc).
  destruct (run_loop keywords ∅ st0) as [[new | e] st1].
  - split; eauto.
  - split; intros H; [destruct H as (? & ?) | destruct H as (? & ? & ?)]; discriminate.
Qed.

(** What the loop puts in the batch: lists the display can show, and the
    fixed sentence for a keyword the store did not know. *)
Lemma run_keyword_built keyword new_reports st new_reports' st' :
  cache_inv (cache st) ->
  truthy (search_value (length (http_log st)) keyword 10) = true ->
  run_keyword keyword new_reports st = (Ok new_reports', st') ->
  exists r,
    new_reports' = <[keyword := r]> new_reports
    /\ (exists l, current r = PList l /\ forallb digestible l = true)
    /\ (reports st !! keyword = None -> trend_change r = PStr NO_PREVIOUS_DATA).
Proof.
  intros Hc Ht. rewrite run_keyword_eq. simpl. rewrite Ht.
  destruct (guardian_search_value keyword 10 st) as (st1 & -> & Hr & Hca & _).
  simpl. rewrite Hr.
  destruct (generate_analysis _ _ _ st1) as [[[cs tc] | e] st2] eqn:Hg; [| discriminate].
  intros [= <- <-]. eexists. split; [reflexivity |]. simpl.
  rewrite <- Hca in Hc.
  destruct (generate_analysis_returns _ _ _ _ _ _ Hc Hg) as [[d Hd] Hv]. split.
  - pose proof (article_texts_truthy _ _ Ht Hd) as Hal.
    destruct (search_value (length (http_log st)) keyword 10) as [| | | | | l |];
      try discriminate.
    exists l. split; [reflexivity |]. apply article_texts_digestible. eauto.
  - intros Hnone. apply Hv. unfold prior_current. rewrite Hnone. reflexivity.
Qed.

Lemma run_loop_built keywords : forall new_reports st new_reports' st',
  cache_inv (cache st) ->
  run_loop keywords new_reports st = (Ok new_reports', st') ->
  forall k r, new_reports' !! k = Some r ->
    new_reports !! k = Some r
    \/ ((exists l, current r = PList l /\ forallb digestible l = true)
        /\ (reports st !! k = None -> trend_change r = PStr NO_PREVIOUS_DATA)).
Proof.
  induction keywords as [| k0 ks IH]; intros acc st new st' Hc.
  - intros [= <- _]. auto.
  - rewrite run_loop_cons.
    destruct (run_keyword k0 acc st) as [[acc1 | e] st1] eqn:Hk; [| discriminate].
    intros Hl k r Hkr.
    pose proof (run_keyword_frame k0 acc st) as (Hr & _ & Hc1). rewrite Hk in Hr, Hc1.
    simpl in Hr, Hc1.
    destruct (IH acc1 st1 new st' (Hc1 Hc) Hl k r Hkr) as [H | H];
      [| rewrite Hr in H; auto].
    destruct (truthy (search_value (length (http_log st)) k0 10)) eqn:Ht.
    + destruct (run_keyword_built _ _ _ _ _ Hc Ht Hk) as (r0 & -> & Hcur & Htc).
      destruct (decide (k0 = k)) as [-> | Hne].
      * rewrite lookup_insert_eq in H. injection H as ->. auto.
      * rewrite lookup_insert_ne in H by done. auto.
    + pose proof (run_keyword_nothing k0 acc st Ht) as Hn. rewrite Hk in Hn.
      injection Hn as ->. auto.
Qed.

Lemma run_agent_built keywords st :
  cache_inv (cache st) ->
  let st' := (run_agent keywords st).2 in
  (store_digestible (reports st) -> store_digestible (reports st'))
  /\ forall k r, reports st !! k = None -> reports st' !! k = Some r ->
                 trend_change r = PStr NO_PREVIOUS_DATA.
Proof.
  intros Hc. rewrite run_agent_eq. simpl. set (st0 := with_shown _ st).
  pose proof (run_loop_frame keywords ∅ st0) as (Hr & _).
  destruct (run_loop keywords ∅ st0) as [[new | e] st1] eqn:Hl; simpl in *.
  - rewrite Hr. split.
    + intros Hd k r Hk. apply lookup_union_Some_raw in Hk as [Hk | [_ Hk]]; [| eauto].
      destruct (run_loop_built keywords ∅ st0 new st1 Hc Hl k r Hk) as [H | [H _]];
        [| exact H].
      rewrite lookup_empty in H. discriminate.
    + intros k r Hnone Hk.
      apply lookup_union_Some_raw in Hk as [Hk | [_ Hk]]; [| congruence].
      destruct (run_loop_built keywords ∅ st0 new st1 Hc Hl k r Hk) as [H | [_ H]];
        [| auto].
      rewrite lookup_empty in H. discriminate.
  - rewrite Hr. split; [auto | congruence].
Qed.

(** X17. The record a run creates for a keyword the store did not know has
    the fixed no-previous-data sentence for [trend_change]. *)
Theorem first_record_has_no_trend keywords st k r :
  cache_inv (cache st) ->
  reports st !! k = None ->
  reports (run_agent keywords st).2 !! k = Some r ->
  trend_change r = PStr NO_PREVIOUS_DATA.
Proof. intros Hc. apply (run_agent_built keywords st Hc). Qed.

(** *** The script *)

Lemma size_reports_empty (m : gmap string report) :
  Nat.eqb (size m) 0 = true <-> m = ∅.
Proof. rewrite Nat.eqb_eq. apply map_size_empty_iff. Qed.

(** X18. "Refresh & Compare Trends" on an empty store searches nothing and
    creates no record: it shows one warning, whatever the keywords. *)
Theorem refresh_needs_a_first_search keywords st :
  reports st = ∅ ->
  exists msg,
    on_refresh keywords st = (Ok tt, with_shown (shown st ++ [(Warning, msg)]) st).
Proof.
  intros Hr. unfold on_refresh.
  assert (Hs : Nat.eqb (size (reports st)) 0 = true) by (apply size_reports_empty, Hr).
  rewrite Hs. destruct keywords; simpl; eauto.
Qed.

(** X19. With an input that holds nothing but white space and commas, an
    execution of the script searches nothing, asks the model nothing and
    leaves the store and the cache as they were: it shows one warning per
    button pressed. *)
Theorem blank_input_only_warns keyword_input search refresh st :
  blank keyword_input = true ->
  exists msgs,
    rerun keyword_input search refresh st
    = (Ok tt, with_shown (shown st ++ msgs) st)
    /\ length msgs = (if search then 1 else 0) + (if refresh then 1 else 0)
    /\ Forall (fun m => m.1 = Warning) msgs.
Proof.
  intros Hb. apply parse_keywords_nil_blank in Hb.
  unfold rerun, on_search, on_refresh, bind, show, ret. rewrite Hb.
  destruct st as [r c sh h ch cl].
  destruct search, refresh; simpl; unfold with_shown; simpl.
  - exists [(Warning, "Please enter keywords to analyze."%string);
            (Warning, "Please enter keywords to analyze."%string)].
    rewrite <- app_assoc. repeat split; repeat constructor.
  - exists [(Warning, "Please enter keywords to analyze."%string)].
    repeat split; repeat constructor.
  - exists [(Warning, "Please enter keywords to analyze."%string)].
    repeat split; repeat constructor.
  - exists []. rewrite app_nil_r. repeat split; constructor.
Qed.

(** The three invariants of a session. *)
Lemma rerun_preserves (P : state -> Prop) :
  (forall keywords st, P st -> P (run_agent keywords st).2) ->
  (forall lv msg st, P st -> P (show lv msg st).2) ->
  forall keyword_input search refresh st,
    P st -> P (rerun keyword_input search refresh st).2.
Proof.
  intros Hrun Hshow keyword_input search refresh st HP.
  assert (Hs : P (on_search (parse_keywords keyword_input) st).2).
  { unfold on_search. destruct (parse_keywords keyword_input); auto. }
  assert (Hr : forall st1, P st1 -> P (on_refresh (parse_keywords keyword_input) st1).2).
  { intros st1 H1. unfold on_refresh.
    destruct (parse_keywords keyword_input); [auto |].
    destruct (negb _); auto. }
  unfold rerun, bind, ret.
  destruct search.
  - destruct (on_search (parse_keywords keyword_input) st) as [[[] | e] st1];
      simpl in *; [| exact Hs].
    destruct refresh; [apply Hr, Hs | exact Hs].
  - destruct refresh; [apply Hr, HP | exact HP].
Qed.

Lemma session_inv st :
  session st ->
  store_inv (reports st) /\ cache_inv (cache st) /\ store_digestible (reports st).
Proof.
  induction 1 as [st Hr Hc | st keyword_input search refresh _ IH].
  - rewrite Hr. repeat split; [apply map_Forall_empty | exact Hc | apply map_Forall_empty].
  - apply (rerun_preserves
             (fun st => store_inv (reports st) /\ cache_inv (cache st)
                        /\ store_digestible (reports st))); [| | exact IH].
    + intros keywords st0 H. destruct H as (Hm & Hc & Hd).
      destruct (run_agent_inv keywords st0 Hm Hc) as (Hm' & Hc' & _).
      destruct (run_agent_built keywords st0 Hc) as (Hd' & _). auto.
    + intros lv msg st0 H. exact H.
Qed.

(** X20. In every state the script can reach, whatever was typed and
    whichever buttons were pressed, the article list of every record of
    the store is shown to its end: no article of the store makes the
    display raise. *)
Theorem stored_articles_are_shown st k r :
  session st ->
  reports st !! k = Some r ->
  exists l ms,
    current r = PList l /\ show_current r = (ms, Ok tt) /\ length ms = length l.
Proof.
  intros Hs Hr. destruct (session_inv st Hs) as (_ & _ & Hd).
  destruct (Hd k r Hr) as (l & Hl & Hdig).
  destruct (show_articles_digestible l Hdig) as (ms & Hms & Hlen).
  exists l, ms. unfold show_current. rewrite Hl. simpl. auto.
Qed.

End Facts.

(** ** The claims on the sample session *)

Lemma rerun_rotates_current_witness :
  exists st' r',
    run_agent Sample.py_str Sample.http_get Sample.chat_create Sample.now
      [Sample.keyword] Sample.after_first = (Ok tt, st')
    /\ reports st' !! Sample.keyword = Some r'
    /\ previous r' = Sample.three
    /\ current r' = Sample.two.
Proof.
  refine (rerun_rotates_current Sample.py_str Sample.http_get Sample.chat_create
            Sample.now [Sample.keyword] Sample.after_first Sample.keyword
            {| current := Sample.three; previous := PList [];
               current_summary := PStr "A report.";
               trend_change := PStr (NO_PREVIOUS_DATA);
               last_updated := "2024-02-01 09:00:00" |} 0 _ _ _ _ _ _).
  - apply (reachable_inv Sample.py_str Sample.http_get Sample.chat_create Sample.now).
    apply reachable_run, reachable_start; [reflexivity | exact (List.Forall_nil _)].
  - intros [| j] k' H; [| destruct j; discriminate].
    injection H as <-. vm_compute. reflexivity.
  - vm_compute. reflexivity.
  - reflexivity.
  - vm_compute. reflexivity.
  - intros j Hlt H. destruct j as [| j]; [lia | destruct j; discriminate].
Defined.

Lemma empty_fetch_keeps_entry_witness :
  reports (run_agent Sample.py_str Sample.http_get Sample.chat_create Sample.now
             [Sample.keyword] Sample.after_second).2 !! Sample.keyword
  = reports Sample.after_second !! Sample.keyword.
Proof.
  apply (empty_fetch_keeps_entry Sample.py_str Sample.http_get Sample.chat_create
           Sample.now [Sample.keyword] Sample.after_second Sample.keyword).
  intros [| j] H; [| destruct j; discriminate].
  vm_compute. reflexivity.
Defined.

Lemma no_previous_no_trend_call_witness :
  let call :=
    generate_analysis Sample.py_str Sample.chat_create Sample.keyword
      Sample.three PNone Sample.start in
  (chat_log call.2 = chat_log Sample.start
   \/ exists d, article_texts Sample.py_str Sample.three = Ok d
                /\ chat_log call.2
                   = chat_log Sample.start ++ [summary_prompt Sample.keyword d])
  /\ match article_texts Sample.py_str Sample.three with
     | Ok _ => exists summary, call.1 = Ok (summary, PStr NO_PREVIOUS_DATA)
     | Raise e => call.1 = Raise e
     end.
Proof.
  apply (no_previous_no_trend_call Sample.py_str Sample.chat_create Sample.keyword
           Sample.three PNone Sample.start).
  - exact (List.Forall_nil _).
  - reflexivity.
Defined.

Lemma model_failure_is_contained_witness :
  exists st',
    generate_analysis Sample.py_str Sample.chat_create Sample.keyword
      Sample.two Sample.three Sample.after_first
    = (Ok (PStr "A report.", PStr NO_PREVIOUS_DATA), st').
Proof.
  refine (proj1 (proj2
    (model_failure_is_contained Sample.py_str Sample.chat_create Sample.keyword
       Sample.two Sample.three Sample.after_first
       (join nl [digest_line (Sample.article "Quantum funding" "2024-02-01T09:00:00Z" "A new round");
                 digest_line (PDict [("webTitle", PStr "Post-quantum keys")])])
       _ _))
    (join nl ["- Qubits at scale"; "- Error correction"; "- "]) _ _);
    vm_compute; reflexivity.
Defined.

Lemma search_failure_is_skipped_witness :
  let e := External "503 Server Error: Service Unavailable" in
  exists st1,
    guardian_search Sample.http_get Sample.keyword 10 Sample.after_second
    = (Ok (PList []), st1)
    /\ shown st1
       = shown Sample.after_second ++ [(Error, search_error_message Sample.keyword e)]
    /\ reports st1 = reports Sample.after_second
    /\ run_loop Sample.py_str Sample.http_get Sample.chat_create Sample.now
         [Sample.keyword; "Climate Change"%string] ∅ Sample.after_second
       = run_loop Sample.py_str Sample.http_get Sample.chat_create Sample.now
           ["Climate Change"%string] ∅
           (with_shown (shown st1 ++ [(Warning, no_articles_message Sample.keyword)])
              st1).
Proof.
  apply (search_failure_is_skipped Sample.py_str Sample.http_get Sample.chat_create
           Sample.now Sample.keyword ["Climate Change"%string] ∅ Sample.after_second).
  right. eexists. split; [vm_compute; reflexivity |]. split; [simpl; lia | reflexivity].
Defined.

Lemma digest_one_line_per_article_witness :
  let records :=
    [Sample.article "Qubits at scale" "2024-01-02T10:00:00Z" "A new chip";
     Sample.article "Error correction" "2024-01-03T08:30:00Z" "Fewer errors";
     PDict []] in
  let entries :=
    ["- Qubits at scale (2024-01-02) - A new chip";
     "- Error correction (2024-01-03) - Fewer errors";
     "-  () - "]%string in
  forallb article_record records = true
  /\ forallb single_line_record records = true
  /\ exists d,
       article_texts Sample.py_str (PList records) = Ok d
       /\ d = join nl entries
       /\ (forallb single_line_record records = true ->
           lines_of d = entries /\ length (lines_of d) = 3).
Proof.
  intros records entries.
  split; [reflexivity |]. split; [reflexivity |].
  exact (digest_one_line_per_article Sample.py_str records eq_refl).
Defined.

Lemma repeated_call_is_cached_witness :
  let first :=
    generate_analysis Sample.py_str Sample.chat_create Sample.keyword
      Sample.three PNone Sample.start in
  let st2 := Sample.run [Sample.keyword] first.2 in
  exists st3,
    generate_analysis Sample.py_str Sample.chat_create Sample.keyword
      Sample.three PNone st2
    = (Ok (PStr "A report.", PStr NO_PREVIOUS_DATA), st3)
    /\ chat_log st3 = chat_log st2.
Proof.
  intros first st2.
  apply (repeated_call_is_cached Sample.py_str Sample.http_get Sample.chat_create
           Sample.now Sample.keyword Sample.three PNone Sample.start
           (PStr "A report.", PStr NO_PREVIOUS_DATA) first.2 st2).
  - vm_compute. reflexivity.
  - apply later_run, later_now.
Defined.

(** C8, as stated, fails: an envelope whose [results] is [null] makes the
    client return [None], which is no list. *)
Lemma guardian_search_returns_non_list :
  exists v st',
    guardian_search Sample.http_null Sample.keyword 10 Sample.start = (Ok v, st')
    /\ forall l, v <> PList l.
Proof.
  exists PNone. eexists. split; [vm_compute; reflexivity | discriminate].
Qed.

Lemma store_records_well_formed_witness :
  (forall k r, reports Sample.after_second !! k = Some r ->
     (exists a l, current r = PList (a :: l)
                  /\ Forall (fun x => exists d, x = PDict d) (a :: l))
     /\ (exists l', previous r = PList l'))
  /\ (forall keywords k r,
        reports Sample.after_second !! k = None ->
        reports (run_agent Sample.py_str Sample.http_get Sample.chat_create
                   Sample.now keywords Sample.after_second).2 !! k = Some r ->
        previous r = PList []).
Proof.
  apply (store_records_well_formed Sample.py_str Sample.http_get Sample.chat_create
           Sample.now Sample.after_second).
  apply reachable_run, reachable_run, reachable_start;
    [reflexivity | exact (List.Forall_nil _)].
Defined.

(** The scenarios of the specification, evaluated. *)
Example first_run_record :
  reports Sample.after_first !! Sample.keyword
  = Some {| current := Sample.three; previous := PList [];
            current_summary := PStr "A report.";
            trend_change := PStr NO_PREVIOUS_DATA;
            last_updated := "2024-02-01 09:00:00" |}.
Proof. vm_compute. reflexivity. Qed.

Example second_run_record :
  reports Sample.after_second !! Sample.keyword
  = Some {| current := Sample.two; previous := Sample.three;
            current_summary := PStr "A report.";
            trend_change := PStr NO_PREVIOUS_DATA;
            last_updated := "2024-02-01 09:00:00" |}.
Proof. vm_compute. reflexivity. Qed.

Example second_run_shows_the_model_error :
  (Error, "OpenAI Trend Analysis Error: Rate limit exceeded"%string)
  ∈ shown Sample.after_second.
Proof. vm_compute. set_solver. Qed.

Example second_run_with_a_model_that_replies :
  let run := run_agent Sample.py_str Sample.http_get Sample.chat_replies Sample.now
               [Sample.keyword] in
  reports (run (run Sample.start).2).2 !! Sample.keyword
  = Some {| current := Sample.two; previous := Sample.three;
            current_summary := PStr "A report.";
            trend_change := PStr "A report.";
            last_updated := "2024-02-01 09:00:00" |}.
Proof. vm_compute. reflexivity. Qed.

(** ** The further properties on the sample session *)

Lemma parse_keywords_clean_witness :
  In "Quantum Computing"%string (parse_keywords default_keywords)
  /\ clean_keyword "Quantum Computing" = true.
Proof.
  assert (H : In "Quantum Computing"%string (parse_keywords default_keywords))
    by (vm_compute; tauto).
  split; [exact H |]. exact (parse_keywords_clean default_keywords _ H).
Defined.

Lemma parse_keywords_join_witness :
  parse_keywords default_keywords
  = ["Space Industry"; "Artificial Intelligence"; "Quantum Computing";
     "Climate Change"]%string.
Proof.
  exact (parse_keywords_join
           ["Space Industry"; "Artificial Intelligence"; "Quantum Computing";
            "Climate Change"]%string eq_refl).
Defined.

Lemma previous_titles_one_per_article_witness :
  previous_article_texts Sample.py_str Sample.three
  = Ok (join nl ["- Qubits at scale"; "- Error correction"; "- "]%string).
Proof.
  exact (previous_titles_one_per_article Sample.py_str
           [Sample.article "Qubits at scale" "2024-01-02T10:00:00Z" "A new chip";
            Sample.article "Error correction" "2024-01-03T08:30:00Z" "Fewer errors";
            PDict []] eq_refl).
Defined.

Lemma article_markdown_record_witness :
  article_markdown Sample.py_str (PDict [("webTitle", PStr "Post-quantum keys")])
  = Ok ("* **[Post-quantum keys](<#>)** (__)  " +:+ nl +:+ "  No summary available").
Proof.
  exact (article_markdown_record Sample.py_str
           (PDict [("webTitle", PStr "Post-quantum keys")]) eq_refl).
Defined.

Lemma both_prompts_are_sent_witness :
  exists comparison summary,
    chat_log (generate_analysis Sample.py_str Sample.chat_create Sample.keyword
                Sample.two Sample.three Sample.after_first).2
    = chat_log Sample.after_first ++ [comparison; summary]
    /\ Sample.chat_create (length (chat_log Sample.after_first)) comparison
       = Raise (External "Rate limit exceeded").
Proof.
  eexists. eexists. split.
  - refine (both_prompts_are_sent Sample.py_str Sample.chat_create Sample.keyword
              Sample.two Sample.three Sample.after_first
              (join nl [digest_line (Sample.article "Quantum funding" "2024-02-01T09:00:00Z" "A new round");
                        digest_line (PDict [("webTitle", PStr "Post-quantum keys")])])
              _ _); vm_compute; reflexivity.
  - reflexivity.
Defined.

Lemma model_errors_are_shown_witness :
  shown (generate_analysis Sample.py_str Sample.chat_create Sample.keyword
           Sample.two Sample.three Sample.after_first).2
  = shown Sample.after_first
    ++ [(Error, "OpenAI Trend Analysis Error: Rate limit exceeded"%string)].
Proof.
  refine (model_errors_are_shown Sample.py_str Sample.chat_create Sample.keyword
            Sample.two Sample.three Sample.after_first
            (join nl [digest_line (Sample.article "Quantum funding" "2024-02-01T09:00:00Z" "A new round");
                      digest_line (PDict [("webTitle", PStr "Post-quantum keys")])])
            _ _); vm_compute; reflexivity.
Defined.

Lemma failed_call_has_no_effect_witness :
  exists e,
    generate_analysis Sample.py_str Sample.chat_create Sample.keyword
      Sample_script.undated PNone Sample.after_first = (Raise e, Sample.after_first).
Proof.
  exists (TypeError "'NoneType' object is not subscriptable").
  assert (H : exists st',
             generate_analysis Sample.py_str Sample.chat_create Sample.keyword
               Sample_script.undated PNone Sample.after_first
             = (Raise (TypeError "'NoneType' object is not subscriptable"), st'))
    by (eexists; vm_compute; reflexivity).
  destruct H as [st' H].
  rewrite (failed_call_has_no_effect _ _ _ _ _ _ _ _ H) in H. exact H.
Defined.

Lemma generate_analysis_returns_iff_witness :
  (exists v st',
     generate_analysis Sample.py_str Sample.chat_create Sample.keyword
       Sample_script.undated PNone Sample.start = (Ok v, st'))
  <-> (exists d, article_texts Sample.py_str Sample_script.undated = Ok d)
      /\ (truthy PNone = true ->
          exists pd, previous_article_texts Sample.py_str PNone = Ok pd).
Proof.
  exact (generate_analysis_returns_iff Sample.py_str Sample.chat_create Sample.keyword
           Sample_script.undated PNone Sample.start (List.Forall_nil _)).
Defined.

Lemma summary_failure_is_kept_witness :
  let st1 :=
    (generate_analysis Sample.py_str Sample.chat_create "Climate Change"
       Sample.two PNone Sample.after_first).2 in
  exists st3,
    generate_analysis Sample.py_str Sample.chat_create "Climate Change"
      Sample.two PNone (Sample.run [Sample.keyword] st1)
    = (Ok (PStr SUMMARY_FAILED, PStr NO_PREVIOUS_DATA), st3)
    /\ chat_log st3 = chat_log (Sample.run [Sample.keyword] st1).
Proof.
  intros st1.
  refine (summary_failure_is_kept Sample.py_str Sample.http_get Sample.chat_create
            Sample.now "Climate Change" Sample.two PNone Sample.after_first
            (join nl [digest_line (Sample.article "Quantum funding" "2024-02-01T09:00:00Z" "A new round");
                      digest_line (PDict [("webTitle", PStr "Post-quantum keys")])])
            (External "Rate limit exceeded") (Sample.run [Sample.keyword] st1)
            _ _ _ _ _).
  - vm_compute. reflexivity.
  - vm_compute. reflexivity.
  - reflexivity.
  - vm_compute. reflexivity.
  - apply later_run, later_now.
Defined.

Lemma failed_run_writes_nothing_witness :
  let keywords := [Sample.keyword; "Climate Change"%string] in
  (exists e st',
     run_agent Sample.py_str Sample_script.http_get Sample.chat_create Sample.now
       keywords Sample.start = (Raise e, st'))
  /\ reports (run_agent Sample.py_str Sample_script.http_get Sample.chat_create
                Sample.now keywords Sample.start).2 = ∅.
Proof.
  intros keywords.
  assert (H : exists e st',
             run_agent Sample.py_str Sample_script.http_get Sample.chat_create
               Sample.now keywords Sample.start = (Raise e, st'))
    by (eexists; eexists; vm_compute; reflexivity).
  split; [exact H |]. destruct H as (e & st' & H).
  rewrite H. exact (failed_run_writes_nothing _ _ _ _ _ _ _ _ H).
Defined.

Lemma run_agent_returns_iff_witness :
  (exists st',
     run_agent Sample.py_str Sample_script.http_get Sample.chat_create Sample.now
       [Sample.keyword; "Climate Change"%string] Sample.start = (Ok tt, st'))
  <-> (forall j k,
         [Sample.keyword; "Climate Change"%string] !! j = Some k ->
         truthy (search_value Sample_script.http_get
                   (length (http_log Sample.start) + j) k 10) = true ->
         exists d,
           article_texts Sample.py_str
             (search_value Sample_script.http_get
                (length (http_log Sample.start) + j) k 10) = Ok d).
Proof.
  apply (run_agent_returns_iff Sample.py_str Sample_script.http_get
           Sample.chat_create Sample.now
           [Sample.keyword; "Climate Change"%string] Sample.start).
  - apply map_Forall_empty.
  - exact (List.Forall_nil _).
Defined.

Lemma first_record_has_no_trend_witness :
  exists r,
    reports Sample.after_first !! Sample.keyword = Some r
    /\ trend_change r = PStr NO_PREVIOUS_DATA.
Proof.
  assert (H : exists r, reports Sample.after_first !! Sample.keyword = Some r)
    by (eexists; vm_compute; reflexivity).
  destruct H as [r H]. exists r. split; [exact H |].
  exact (first_record_has_no_trend Sample.py_str Sample.http_get Sample.chat_create
           Sample.now [Sample.keyword] Sample.start Sample.keyword r
           (List.Forall_nil _) eq_refl H).
Defined.

Lemma refresh_needs_a_first_search_witness :
  exists msg,
    on_refresh Sample.py_str Sample.http_get Sample.chat_create Sample.now
      [Sample.keyword] Sample.start
    = (Ok tt, with_shown (shown Sample.start ++ [(Warning, msg)]) Sample.start).
Proof.
  exact (refresh_needs_a_first_search Sample.py_str Sample.http_get
           Sample.chat_create Sample.now [Sample.keyword] Sample.start eq_refl).
Defined.

Lemma blank_input_only_warns_witness :
  exists msgs,
    rerun Sample.py_str Sample.http_get Sample.chat_create Sample.now
      " , ," true true Sample.after_first
    = (Ok tt, with_shown (shown Sample.after_first ++ msgs) Sample.after_first)
    /\ length msgs = 2
    /\ Forall (fun m => m.1 = Warning) msgs.
Proof.
  exact (blank_input_only_warns Sample.py_str Sample.http_get Sample.chat_create
           Sample.now " , ," true true Sample.after_first eq_refl).
Defined.

Lemma stored_articles_are_shown_witness :
  exists r l ms,
    reports Sample_script.searched !! Sample.keyword = Some r
    /\ current r = PList l
    /\ show_current Sample.py_str r = (ms, Ok tt)
    /\ length ms = length l.
Proof.
  assert (H : exists r, reports Sample_script.searched !! Sample.keyword = Some r)
    by (eexists; vm_compute; reflexivity).
  destruct H as [r H].
  destruct (stored_articles_are_shown Sample.py_str Sample.http_get
              Sample.chat_create Sample.now Sample_script.searched Sample.keyword r)
    as (l & ms & H1 & H2 & H3).
  - apply session_rerun, session_start; [reflexivity | exact (List.Forall_nil _)].
  - exact H.
  - exists r, l, ms. auto.
Defined.

Lemma run_merges_batch_once_witness :
  exists new_reports st1 r,
    run_loop Sample.py_str Sample.http_get Sample.chat_create Sample.now
      [Sample.keyword] ∅
      (show Info "Searching for new data and generating analysis reports. Please wait..."
         Sample.after_first).2
    = (Ok new_reports, st1)
    /\ new_reports !! Sample.keyword = Some r
    /\ current r = Sample.two
    /\ reports Sample.after_first !! Sample.keyword <> Some r
    /\ reports Sample.after_second = new_reports ∪ reports Sample.after_first
    /\ reports Sample.after_second !! Sample.keyword = Some r.
Proof.
  assert (H : exists new_reports st1 r,
            run_loop Sample.py_str Sample.http_get Sample.chat_create Sample.now
              [Sample.keyword] ∅
              (show Info "Searching for new data and generating analysis reports. Please wait..."
                 Sample.after_first).2
            = (Ok new_reports, st1)
            /\ new_reports !! Sample.keyword = Some r
            /\ current r = Sample.two
            /\ reports Sample.after_first !! Sample.keyword <> Some r).
  { eexists. eexists. eexists. split; [vm_compute; reflexivity |].
    split; [vm_compute; reflexivity |]. split; [reflexivity |].
    vm_compute. discriminate. }
  destruct H as (new & st1 & r & Hl & Hr & Hc & Hne).
  exists new, st1, r.
  destruct (run_merges_batch_once Sample.py_str Sample.http_get Sample.chat_create
              Sample.now [Sample.keyword] Sample.after_first)
    as (_ & Hok & _).
  destruct (Hok new st1 Hl) as (_ & Hmerge & Hin & _).
  repeat split; auto.
Defined.
